(** * The StatefulSet service of the redis operator (service/k8s/statefulset.go)

    A shallow embedding of [StatefulSetService]: every method is a
    computation in a small state-and-panic monad.  The state holds the
    cluster behind the injected [kubernetes.Interface], the Go heap cell
    that the caller's [*appsv1.StatefulSet] points to, the chronological
    list of calls made on the client, the reports handed to the metrics
    recorder and the lines written to the logger. *)

From Stdlib Require Import Ascii.
From stdpp Require Import gmap strings list fin_maps pretty.

(** ** apimachinery: errors and options *)

Module metav1.

Inductive StatusReason :=
| StatusReasonUnknown
| StatusReasonUnauthorized
| StatusReasonForbidden
| StatusReasonNotFound
| StatusReasonAlreadyExists
| StatusReasonConflict
| StatusReasonInvalid
| StatusReasonTimeout
| StatusReasonServiceUnavailable.

Inductive DeletionPropagation :=
| DeletePropagationOrphan
| DeletePropagationBackground
| DeletePropagationForeground.

Inductive GetOptions := mkGetOptions.
Inductive CreateOptions := mkCreateOptions.
Inductive UpdateOptions := mkUpdateOptions.

(** [PropagationPolicy] is a pointer in Go: [None] is the nil pointer,
    which leaves the choice to the server's default. *)
Record DeleteOptions := { PropagationPolicy : option DeletionPropagation }.

Record ListOptions := { LabelSelector : string }.

(** [MatchLabels] is a Go [map[string]string]; the nil map and the empty
    map range alike and are both [∅]. *)
Record LabelSelector_ := { MatchLabels : gmap string string }.

End metav1.

Module errors.
Import metav1.

(** A Go [error] value that is not nil: either the structured
    [*errors.StatusError] of the API machinery, with the reason, the HTTP
    code and the message of its status, or any other error, of which only
    the message is known ([errors.New]). *)
Inductive error :=
| StatusError (reason : StatusReason) (code : Z) (message : string)
| errorString (s : string).

(** [err.Error()] *)
Definition Error (err : error) : string :=
  match err with
  | StatusError _ _ message => message
  | errorString s => s
  end.

Definition ReasonForError (err : error) : StatusReason :=
  match err with
  | StatusError reason _ _ => reason
  | errorString _ => StatusReasonUnknown
  end.

(** [reasonAndCodeForError]: an error that carries no status has the
    unknown reason and code 0. *)
Definition reasonAndCodeForError (err : error) : StatusReason * Z :=
  match err with
  | StatusError reason code _ => (reason, code)
  | errorString _ => (StatusReasonUnknown, 0%Z)
  end.

(** The reasons of [knownReasons]: every reason but the unknown one. *)
Definition knownReason (reason : StatusReason) : bool :=
  match reason with
  | StatusReasonUnknown => false
  | _ => true
  end.

(** [errors.IsNotFound]: decided on the structured status, never on the
    message: the reason is not-found, or the reason is not a known one
    and the code is 404. *)
Definition IsNotFound (err : error) : bool :=
  let '(reason, code) := reasonAndCodeForError err in
  match reason with
  | StatusReasonNotFound => true
  | _ => negb (knownReason reason) && (code =? 404)%Z
  end.

End errors.

(** ** The objects *)

Module appsv1.

Record StatefulSetSpec := {
  Replicas : option Z;
  Selector : option metav1.LabelSelector_;   (* *metav1.LabelSelector *)
  ServiceName : string;
}.

Record StatefulSet := {
  Name : string;
  Namespace : string;
  ResourceVersion : string;
  Labels : gmap string string;
  Spec : StatefulSetSpec;
}.

Record StatefulSetList := { Items : list StatefulSet }.

(** The assignment [statefulSet.ResourceVersion = v]. *)
Definition set_ResourceVersion (o : StatefulSet) (v : string) : StatefulSet :=
  {| Name := Name o; Namespace := Namespace o; ResourceVersion := v;
     Labels := Labels o; Spec := Spec o |}.

End appsv1.

Module corev1.

Record Pod := {
  Name : string;
  Namespace : string;
  Labels : gmap string string;
}.

Record PodList := { Items : list Pod }.

End corev1.

(** ** The client: [kubernetes.Interface], as far as the service uses it *)

Module kubernetes.
Import errors.

(** Every method reads and writes the cluster [World] and answers with a
    Go pair (result, error); either component may be nil.  Create and
    Update take the [*appsv1.StatefulSet] they are called with: the object
    it points to, or nil. *)
Record Interface (World : Type) := {
  StatefulSets_Get :
    string -> string -> metav1.GetOptions -> World ->
    (option appsv1.StatefulSet * option error) * World;
  StatefulSets_Create :
    string -> option appsv1.StatefulSet -> metav1.CreateOptions -> World ->
    (option appsv1.StatefulSet * option error) * World;
  StatefulSets_Update :
    string -> option appsv1.StatefulSet -> metav1.UpdateOptions -> World ->
    (option appsv1.StatefulSet * option error) * World;
  StatefulSets_Delete :
    string -> string -> metav1.DeleteOptions -> World ->
    option error * World;
  StatefulSets_List :
    string -> metav1.ListOptions -> World ->
    (option appsv1.StatefulSetList * option error) * World;
  Pods_List :
    string -> metav1.ListOptions -> World ->
    (option corev1.PodList * option error) * World;
}.

Arguments StatefulSets_Get {World} _ _ _ _ _.
Arguments StatefulSets_Create {World} _ _ _ _ _.
Arguments StatefulSets_Update {World} _ _ _ _ _.
Arguments StatefulSets_Delete {World} _ _ _ _ _.
Arguments StatefulSets_List {World} _ _ _ _.
Arguments Pods_List {World} _ _ _ _.

End kubernetes.

(** ** What a run leaves behind *)

Inductive Resource := statefulsets | pods.

(** One call on the client, with its arguments. *)
Inductive Action :=
| GetAction (resource : Resource) (namespace name : string)
| CreateAction (resource : Resource) (namespace : string)
    (object : option appsv1.StatefulSet)
| UpdateAction (resource : Resource) (namespace : string)
    (object : option appsv1.StatefulSet)
| DeleteAction (resource : Resource) (namespace name : string) (opts : metav1.DeleteOptions)
| ListAction (resource : Resource) (namespace : string) (opts : metav1.ListOptions).

(** A call together with the error it answered (nil is [None]). *)
Record Call := { action : Action; answer : option errors.error }.

Definition verb (a : Action) : string :=
  match a with
  | GetAction _ _ _ => "GET"
  | CreateAction _ _ _ => "CREATE"
  | UpdateAction _ _ _ => "UPDATE"
  | DeleteAction _ _ _ _ => "DELETE"
  | ListAction _ _ _ => "LIST"
  end.

(** One report to the metrics recorder: the arguments of [recordMetrics]. *)
Record Report := {
  rNamespace : string;
  rKind : string;
  rObject : string;
  rOperation : string;
  rErr : option errors.error;
}.

(** A logger is the key/value context it carries; a line is that context
    and the message. *)
Definition Logger := list (string * string).
Record Entry := { fields : Logger; message : string }.

Definition loc := positive.

Record State (World : Type) := {
  cluster : World;
  heap : gmap loc appsv1.StatefulSet;
  calls : list Call;
  reports : list Report;
  logs : list Entry;
}.

Arguments cluster {World} _.
Arguments heap {World} _.
Arguments calls {World} _.
Arguments reports {World} _.
Arguments logs {World} _.

(** ** The monad: state, and Go's panic *)

Inductive Result (A : Type) :=
| Ok (a : A)
| Panic (reason : string).

Arguments Ok {A} a.
Arguments Panic {A} reason.

Definition M (World A : Type) : Type := State World -> Result A * State World.

Global Instance M_ret {World} : MRet (M World) :=
  fun A (a : A) σ => (Ok a, σ).

Global Instance M_bind {World} : MBind (M World) :=
  fun A B (k : A -> M World B) (m : M World A) σ =>
    match m σ with
    | (Ok a, σ') => k a σ'
    | (Panic r, σ') => (Panic r, σ')
    end.

Definition panic {World A} (reason : string) : M World A :=
  fun σ => (Panic reason, σ).

Definition nil_dereference : string :=
  "invalid memory address or nil pointer dereference".

(** [*p] for a pointer that came back from a call: nil panics. *)
Definition deref {World A} (p : option A) : M World A :=
  match p with
  | Some a => mret a
  | None => panic nil_dereference
  end.

(** Reading and writing the cell of a [*appsv1.StatefulSet]; a location
    with no cell is the nil pointer. *)
Definition load {World} (p : loc) : M World appsv1.StatefulSet :=
  fun σ =>
    match heap σ !! p with
    | Some o => (Ok o, σ)
    | None => (Panic nil_dereference, σ)
    end.

(** A pointer handed on without being dereferenced: what it points to, or
    nil. *)
Definition pointee {World} (p : loc) : M World (option appsv1.StatefulSet) :=
  fun σ => (Ok (heap σ !! p), σ).

Definition store {World} (p : loc) (o : appsv1.StatefulSet) : M World unit :=
  fun σ =>
    (Ok tt, {| cluster := cluster σ; heap := <[p := o]> (heap σ);
               calls := calls σ; reports := reports σ; logs := logs σ |}).

(** Running a client method on the cluster and noting the call. *)
Definition invoke {World A} (a : Action) (err_of : A -> option errors.error)
    (f : World -> A * World) : M World A :=
  fun σ =>
    let '(r, w) := f (cluster σ) in
    (Ok r, {| cluster := w; heap := heap σ;
              calls := calls σ ++ [{| action := a; answer := err_of r |}];
              reports := reports σ; logs := logs σ |}).

(** Modelled from the spec: [recordMetrics], defined in a file of package
    k8s that is not part of the sources at hand.  The instrumentation sink
    receives the namespace, the kind, the object name, the verb and the
    error (nil on success); it returns nothing and cannot fail the
    caller. *)
Definition recordMetrics {World} (namespace kind object operation : string)
    (err : option errors.error) : M World unit :=
  fun σ =>
    (Ok tt, {| cluster := cluster σ; heap := heap σ; calls := calls σ;
               reports := reports σ ++
                 [{| rNamespace := namespace; rKind := kind; rObject := object;
                     rOperation := operation; rErr := err |}];
               logs := logs σ |}).

(** Modelled from the spec: the structured logger of package log, not part
    of the sources at hand.  It accepts key/value context and a message and
    never takes part in control flow. *)
Definition WithField (logger : Logger) (key value : string) : Logger :=
  logger ++ [(key, value)].

Definition Infof {World} (logger : Logger) (msg : string) : M World unit :=
  fun σ =>
    (Ok tt, {| cluster := cluster σ; heap := heap σ; calls := calls σ;
               reports := reports σ;
               logs := logs σ ++ [{| fields := logger; message := msg |}] |}).

(** ** Package strings and fmt *)

(** [strings.Join(elems, sep)] *)
Fixpoint Join (elems : list string) (sep : string) : string :=
  match elems with
  | [] => ""
  | [x] => x
  | x :: rest => x +:+ sep +:+ Join rest sep
  end.

(** [fmt.Sprintf("%s=%s", k, v)] *)
Definition Sprintf_eq (k v : string) : string := k +:+ "=" +:+ v.

(** ** The service *)

Import errors.

(** [StatefulSetService]: the client and the logger; the metrics recorder
    is the [reports] component of the state. *)
Record StatefulSetService (World : Type) := {
  kubeClient : kubernetes.Interface World;
  logger : Logger;
}.

Arguments kubeClient {World} _.
Arguments logger {World} _.

Definition NewStatefulSetService {World} (kubeClient : kubernetes.Interface World)
    (logger : Logger) : StatefulSetService World :=
  let logger := logger ++ [("service", "k8s.statefulSet")] in
  {| kubeClient := kubeClient; logger := logger |}.

Section Service.

Context {World : Type}.

(** [metrics.NOT_APPLICABLE], a constant of package metrics. *)
Variable NOT_APPLICABLE : string.

(** Go leaves the order in which [range] visits a map unspecified: the
    order is a parameter, and all that is known of it is that every entry
    is visited once. *)
Variable rangeOrder : gmap string string -> list (string * string).
Hypothesis rangeOrder_perm : forall m, rangeOrder m ≡ₚ map_to_list m.

Variable s : StatefulSetService World.

Local Abbreviation Go := (M World).

Definition GetStatefulSet (namespace name : string)
    : Go (option appsv1.StatefulSet * option error) :=
  '(statefulSet, err) ← invoke (GetAction statefulsets namespace name) snd
      (kubernetes.StatefulSets_Get (kubeClient s) namespace name metav1.mkGetOptions);
  recordMetrics namespace "StatefulSet" name "GET" err;;
  match err with
  | Some _ => mret (None, err)
  | None => mret (statefulSet, err)
  end.

(** The loop [for k, v := range m { labels = append(labels, ...) }]. *)
Definition selectorLabels (m : gmap string string) : list string :=
  fold_left (fun labels '(k, v) => labels ++ [Sprintf_eq k v]) (rangeOrder m) [].

Definition GetStatefulSetPods (namespace name : string)
    : Go (option corev1.PodList * option error) :=
  '(statefulSet, err) ← GetStatefulSet namespace name;
  match err with
  | Some _ => mret (None, err)
  | None =>
      statefulSet ← deref statefulSet;
      Selector ← deref (appsv1.Selector (appsv1.Spec statefulSet));
      let labels := selectorLabels (metav1.MatchLabels Selector) in
      let selector := Join labels "," in
      invoke (ListAction pods namespace {| metav1.LabelSelector := selector |}) snd
        (kubernetes.Pods_List (kubeClient s) namespace
           {| metav1.LabelSelector := selector |})
  end.

Definition CreateStatefulSet (namespace : string) (statefulSet : loc)
    : Go (option error) :=
  passed ← pointee statefulSet;
  '(_, err) ← invoke (CreateAction statefulsets namespace passed) snd
      (kubernetes.StatefulSets_Create (kubeClient s) namespace passed metav1.mkCreateOptions);
  obj ← load statefulSet;
  recordMetrics namespace "StatefulSet" (appsv1.Name obj) "CREATE" err;;
  match err with
  | Some _ => mret err
  | None =>
      Infof (WithField (WithField (logger s) "namespace" namespace)
               "statefulSet" (appsv1.Name obj)) "statefulSet created";;
      mret err
  end.

Definition UpdateStatefulSet (namespace : string) (statefulSet : loc)
    : Go (option error) :=
  passed ← pointee statefulSet;
  '(_, err) ← invoke (UpdateAction statefulsets namespace passed) snd
      (kubernetes.StatefulSets_Update (kubeClient s) namespace passed metav1.mkUpdateOptions);
  obj ← load statefulSet;
  recordMetrics namespace "StatefulSet" (appsv1.Name obj) "UPDATE" err;;
  match err with
  | Some _ => mret err
  | None =>
      Infof (WithField (WithField (logger s) "namespace" namespace)
               "statefulSet" (appsv1.Name obj)) "statefulSet updated";;
      mret err
  end.

Definition CreateOrUpdateStatefulSet (namespace : string) (statefulSet : loc)
    : Go (option error) :=
  obj ← load statefulSet;
  '(storedStatefulSet, err) ← GetStatefulSet namespace (appsv1.Name obj);
  match err with
  | Some e =>
      (* If no resource we need to create. *)
      if IsNotFound e then CreateStatefulSet namespace statefulSet
      else mret err
  | None =>
      (* Already exists, need to Update. *)
      stored ← deref storedStatefulSet;
      store statefulSet
        (appsv1.set_ResourceVersion obj (appsv1.ResourceVersion stored));;
      UpdateStatefulSet namespace statefulSet
  end.

Definition DeleteStatefulSet (namespace name : string) : Go (option error) :=
  let propagation := metav1.DeletePropagationForeground in
  let opts := {| metav1.PropagationPolicy := Some propagation |} in
  err ← invoke (DeleteAction statefulsets namespace name opts) id
      (kubernetes.StatefulSets_Delete (kubeClient s) namespace name opts);
  recordMetrics namespace "StatefulSet" name "DELETE" err;;
  mret err.

Definition ListStatefulSets (namespace : string)
    : Go (option appsv1.StatefulSetList * option error) :=
  '(stsList, err) ← invoke (ListAction statefulsets namespace {| metav1.LabelSelector := "" |}) snd
      (kubernetes.StatefulSets_List (kubeClient s) namespace {| metav1.LabelSelector := "" |});
  recordMetrics namespace "StatefulSet" NOT_APPLICABLE "LIST" err;;
  mret (stsList, err).

End Service.

(** ** An in-memory cluster

    A client to run the service against, after client-go's fake clientset:
    objects are kept in a tracker, and a reactor registered for a verb and
    a resource (the test suite's [AddReactor]) answers in the tracker's
    place with a canned object and error.  The tracker follows the API
    server where the service can see it: a fresh version token on every
    write, a conflict on a stale token, and label selectors made of
    comma-separated [key=value] requirements, the empty selector selecting
    everything. *)

Module fake.

Global Instance Resource_eq_dec : EqDecision Resource.
Proof. solve_decision. Defined.

Record Reactor := {
  onVerb : string;
  onResource : Resource;
  object : option appsv1.StatefulSet;
  err : option error;
}.

Record Clientset := {
  statefulSets : list appsv1.StatefulSet;
  podObjects : list corev1.Pod;
  version : N;
  reactors : list Reactor;
}.

Definition react (verb : string) (resource : Resource) (c : Clientset)
    : option Reactor :=
  find (fun r => String.eqb (onVerb r) verb
                 && bool_decide (onResource r = resource)) (reactors c).

Definition named (namespace name : string) (o : appsv1.StatefulSet) : bool :=
  String.eqb (appsv1.Namespace o) namespace && String.eqb (appsv1.Name o) name.

Definition NewNotFound (name : string) : error :=
  StatusError metav1.StatusReasonNotFound 404
    ("statefulsets.apps " +:+ name +:+ " not found").

Definition NewAlreadyExists (name : string) : error :=
  StatusError metav1.StatusReasonAlreadyExists 409
    ("statefulsets.apps " +:+ name +:+ " already exists").

Definition NewConflict (name : string) : error :=
  StatusError metav1.StatusReasonConflict 409
    ("Operation cannot be fulfilled on statefulsets.apps " +:+ name +:+
     ": the object has been modified").

Definition with_statefulSets (c : Clientset) (l : list appsv1.StatefulSet)
    : Clientset :=
  {| statefulSets := l; podObjects := podObjects c;
     version := N.succ (version c); reactors := reactors c |}.

(** The object as the tracker stores it: in the namespace of the call and
    under the next version token. *)
Definition stamped (c : Clientset) (namespace : string) (o : appsv1.StatefulSet)
    : appsv1.StatefulSet :=
  {| appsv1.Name := appsv1.Name o; appsv1.Namespace := namespace;
     appsv1.ResourceVersion := pretty (N.succ (version c));
     appsv1.Labels := appsv1.Labels o; appsv1.Spec := appsv1.Spec o |}.

Definition Get (namespace name : string) (_ : metav1.GetOptions) (c : Clientset)
    : (option appsv1.StatefulSet * option error) * Clientset :=
  match react "get" statefulsets c with
  | Some r => ((object r, err r), c)
  | None =>
      match find (named namespace name) (statefulSets c) with
      | Some o => ((Some o, None), c)
      | None => ((None, Some (NewNotFound name)), c)
      end
  end.

(** The answer to a write that came without an object. *)
Definition NewInvalid : error :=
  StatusError metav1.StatusReasonInvalid 422
    "statefulsets.apps is invalid: no object".

Definition Create (namespace : string) (passed : option appsv1.StatefulSet)
    (_ : metav1.CreateOptions) (c : Clientset)
    : (option appsv1.StatefulSet * option error) * Clientset :=
  match react "create" statefulsets c, passed with
  | Some r, _ => ((object r, err r), c)
  | None, None => ((None, Some NewInvalid), c)
  | None, Some o =>
      match find (named namespace (appsv1.Name o)) (statefulSets c) with
      | Some _ => ((None, Some (NewAlreadyExists (appsv1.Name o))), c)
      | None =>
          let o' := stamped c namespace o in
          ((Some o', None), with_statefulSets c (statefulSets c ++ [o']))
      end
  end.

Definition Update (namespace : string) (passed : option appsv1.StatefulSet)
    (_ : metav1.UpdateOptions) (c : Clientset)
    : (option appsv1.StatefulSet * option error) * Clientset :=
  match react "update" statefulsets c, passed with
  | Some r, _ => ((object r, err r), c)
  | None, None => ((None, Some NewInvalid), c)
  | None, Some o =>
      match find (named namespace (appsv1.Name o)) (statefulSets c) with
      | None => ((None, Some (NewNotFound (appsv1.Name o))), c)
      | Some old =>
          if String.eqb (appsv1.ResourceVersion o) ""
             || String.eqb (appsv1.ResourceVersion o) (appsv1.ResourceVersion old)
          then
            let o' := stamped c namespace o in
            ((Some o', None),
             with_statefulSets c
               (map (fun x => if named namespace (appsv1.Name o) x then o' else x)
                    (statefulSets c)))
          else ((None, Some (NewConflict (appsv1.Name o))), c)
      end
  end.

Definition Delete (namespace name : string) (_ : metav1.DeleteOptions)
    (c : Clientset) : option error * Clientset :=
  match react "delete" statefulsets c with
  | Some r => (err r, c)
  | None =>
      match find (named namespace name) (statefulSets c) with
      | None => (Some (NewNotFound name), c)
      | Some _ =>
          (None,
           with_statefulSets c
             (List.filter (fun x => negb (named namespace name x)) (statefulSets c)))
      end
  end.

(** Label selectors: [labels.Parse], for equality requirements. *)
Fixpoint split (sep : Ascii.ascii) (s : string) : list string :=
  match s with
  | EmptyString => [EmptyString]
  | String ch rest =>
      if Ascii.eqb ch sep then EmptyString :: split sep rest
      else match split sep rest with
           | head :: tail => String ch head :: tail
           | [] => [String ch EmptyString]
           end
  end.

Definition requirement (s : string) : string * option string :=
  match split "="%char s with
  | [key] => (key, None)
  | key :: values => (key, Some (Join values "="))
  | [] => (s, None)
  end.

Definition Parse (selector : string) : list (string * option string) :=
  if String.eqb selector "" then []
  else map requirement (split ","%char selector).

Definition Matches (selector : string) (labels : gmap string string) : bool :=
  forallb (fun '(key, value) =>
             match value with
             | Some v => bool_decide (labels !! key = Some v)
             | None => bool_decide (is_Some (labels !! key))
             end) (Parse selector).

Definition List_ (namespace : string) (opts : metav1.ListOptions) (c : Clientset)
    : (option appsv1.StatefulSetList * option error) * Clientset :=
  match react "list" statefulsets c with
  | Some r => ((None, err r), c)
  | None =>
      ((Some {| appsv1.Items :=
                  List.filter (fun o => String.eqb (appsv1.Namespace o) namespace
                                   && Matches (metav1.LabelSelector opts) (appsv1.Labels o))
                         (statefulSets c) |}, None), c)
  end.

(** Every pod of the namespace, whatever its labels. *)
Definition podsIn (namespace : string) (c : Clientset) : list corev1.Pod :=
  List.filter (fun p => String.eqb (corev1.Namespace p) namespace) (podObjects c).

Definition ListPods (namespace : string) (opts : metav1.ListOptions) (c : Clientset)
    : (option corev1.PodList * option error) * Clientset :=
  match react "list" pods c with
  | Some r => ((None, err r), c)
  | None =>
      ((Some {| corev1.Items :=
                  List.filter (fun p => Matches (metav1.LabelSelector opts) (corev1.Labels p))
                         (podsIn namespace c) |}, None), c)
  end.

Definition client : kubernetes.Interface Clientset :=
  {| kubernetes.StatefulSets_Get := Get;
     kubernetes.StatefulSets_Create := Create;
     kubernetes.StatefulSets_Update := Update;
     kubernetes.StatefulSets_Delete := Delete;
     kubernetes.StatefulSets_List := List_;
     kubernetes.Pods_List := ListPods |}.

End fake.

(** ** Scenarios *)

Definition run {World A} (m : M World A) (σ : State World) : Result A * State World :=
  m σ.

(** The state a call starts from: the cluster, the caller's objects, and
    nothing recorded yet. *)
Definition initial {World} (w : World) (h : gmap loc appsv1.StatefulSet)
    : State World :=
  {| cluster := w; heap := h; calls := []; reports := []; logs := [] |}.

Definition redisLabels : gmap string string :=
  {[ "app" := "redis"; "component" := "redis-1" ]}.

(** The desired object of the spec's scenario; the caller has put a version
    token of its own on it. *)
Definition redis1 : appsv1.StatefulSet :=
  {| appsv1.Name := "redis-1"; appsv1.Namespace := "ns-a";
     appsv1.ResourceVersion := "guessed";
     appsv1.Labels := ∅;
     appsv1.Spec :=
       {| appsv1.Replicas := Some 3%Z;
          appsv1.Selector := Some {| metav1.MatchLabels := redisLabels |};
          appsv1.ServiceName := "redis" |} |}.

(** The same object as the cluster holds it, under version token 10. *)
Definition stored1 : appsv1.StatefulSet :=
  appsv1.set_ResourceVersion redis1 "10".

(** A StatefulSet whose selector has no match labels. *)
Definition bare : appsv1.StatefulSet :=
  {| appsv1.Name := "bare"; appsv1.Namespace := "ns-a";
     appsv1.ResourceVersion := "7";
     appsv1.Labels := ∅;
     appsv1.Spec :=
       {| appsv1.Replicas := None;
          appsv1.Selector := Some {| metav1.MatchLabels := ∅ |};
          appsv1.ServiceName := "" |} |}.

Definition pod (namespace name : string) (labels : gmap string string) : corev1.Pod :=
  {| corev1.Name := name; corev1.Namespace := namespace; corev1.Labels := labels |}.

Definition somePods : list corev1.Pod :=
  [ pod "ns-a" "redis-1-0" redisLabels;
    pod "ns-a" "sentinel-0" {[ "app" := "sentinel" ]};
    pod "ns-b" "redis-1-0" redisLabels ].

Definition emptyCluster : fake.Clientset :=
  {| fake.statefulSets := []; fake.podObjects := somePods;
     fake.version := 9; fake.reactors := [] |}.

Definition liveCluster : fake.Clientset :=
  {| fake.statefulSets := [stored1; bare]; fake.podObjects := somePods;
     fake.version := 10; fake.reactors := [] |}.

Definition reacting (c : fake.Clientset) (verb : string) (e : error)
    : fake.Clientset :=
  {| fake.statefulSets := fake.statefulSets c; fake.podObjects := fake.podObjects c;
     fake.version := fake.version c;
     fake.reactors :=
       {| fake.onVerb := verb; fake.onResource := statefulsets;
          fake.object := None; fake.err := Some e |} :: fake.reactors c |}.

Definition forbidden : error :=
  StatusError metav1.StatusReasonForbidden 403 "statefulsets.apps is forbidden".

Definition wanted : error := errorString "wanted error".

Definition service : StatefulSetService fake.Clientset :=
  NewStatefulSetService fake.client [].

(** The caller's pointer, and the heap in which it points to [redis1]. *)
Definition desiredPtr : loc := 1%positive.
Definition callerHeap : gmap loc appsv1.StatefulSet := {[ desiredPtr := redis1 ]}.

(** ** Reading a run *)

(** The calls a run from [σ] to [σ'] has made on the client, in order. *)
Definition issued {World} (σ σ' : State World) : list Call :=
  drop (length (calls σ)) (calls σ').

(** The reports the run has handed to the metrics recorder. *)
Definition reported {World} (σ σ' : State World) : list Report :=
  drop (length (reports σ)) (reports σ').

Definition isGet (c : Call) : bool :=
  match action c with GetAction _ _ _ => true | _ => false end.

Definition isCreate (c : Call) : bool :=
  match action c with CreateAction _ _ _ => true | _ => false end.

Definition isUpdate (c : Call) : bool :=
  match action c with UpdateAction _ _ _ => true | _ => false end.

Definition isDelete (c : Call) : bool :=
  match action c with DeleteAction _ _ _ _ => true | _ => false end.

Definition isList (c : Call) : bool :=
  match action c with ListAction _ _ _ => true | _ => false end.

(** A write to the backing store. *)
Definition isWrite (c : Call) : bool := isCreate c || isUpdate c || isDelete c.

(** The one answer the service consumes itself: not-found on a fetch. *)
Definition consumed (c : Call) : bool :=
  isGet c && match answer c with Some e => IsNotFound e | None => false end.

Definition count (f : Call -> bool) (tr : list Call) : nat :=
  length (List.filter f tr).

(** [strings.Contains(s, substr)] *)
Definition Contains (s substr : string) : bool :=
  match String.index 0 substr s with Some _ => true | None => false end.

(** An error that carries the context of the failed call in its message:
    the resource kind, the namespace, the object name and the verb. *)
Definition carriesContext (e : error) (kind namespace name verb : string) : bool :=
  Contains (Error e) kind && Contains (Error e) namespace
  && Contains (Error e) name && Contains (Error e) verb.

(** An operation hands errors on as they are: every error a call answered,
    the consumed one apart, is the very value the operation returns; and it
    tries nothing twice. *)
Definition verbatim (ret : Result (option error)) (tr : list Call) : Prop :=
  (forall c e, c ∈ tr -> answer c = Some e -> consumed c = false ->
               ret = Ok (Some e))
  /\ (forall c, c ∈ tr -> isWrite c = true -> ret = Ok (answer c))
  /\ NoDup (map (fun c => verb (action c)) tr).

Definition getCall (namespace name : string) (err : option error) : Call :=
  {| action := GetAction statefulsets namespace name; answer := err |}.

Definition createCall (namespace : string) (obj : appsv1.StatefulSet)
    (err : option error) : Call :=
  {| action := CreateAction statefulsets namespace (Some obj); answer := err |}.

Definition updateCall (namespace : string) (obj : appsv1.StatefulSet)
    (err : option error) : Call :=
  {| action := UpdateAction statefulsets namespace (Some obj); answer := err |}.

Definition deleteCall (namespace name : string) (opts : metav1.DeleteOptions)
    (err : option error) : Call :=
  {| action := DeleteAction statefulsets namespace name opts; answer := err |}.

Definition listPodsCall (namespace selector : string) (err : option error) : Call :=
  {| action := ListAction pods namespace {| metav1.LabelSelector := selector |};
     answer := err |}.

Definition report (namespace object operation : string) (err : option error)
    : Report :=
  {| rNamespace := namespace; rKind := "StatefulSet"; rObject := object;
     rOperation := operation; rErr := err |}.

(** The state after one call that was reported: the cluster as the call
    left it, the call and its report appended. *)
Definition noted {World} (σ : State World) (w : World) (c : Call) (r : Report)
    : State World :=
  {| cluster := w; heap := heap σ; calls := calls σ ++ [c];
     reports := reports σ ++ [r]; logs := logs σ |}.

Definition written {World} (σ : State World) (p : loc) (o : appsv1.StatefulSet)
    : State World :=
  {| cluster := cluster σ; heap := <[p := o]> (heap σ); calls := calls σ;
     reports := reports σ; logs := logs σ |}.

Definition logged {World} (σ : State World) (e : Entry) : State World :=
  {| cluster := cluster σ; heap := heap σ; calls := calls σ;
     reports := reports σ; logs := logs σ ++ [e] |}.

Definition entry (lg : Logger) (namespace name msg : string) : Entry :=
  {| fields := WithField (WithField lg "namespace" namespace) "statefulSet" name;
     message := msg |}.

(** The report that [recordMetrics] owes a call: the namespace and the
    kind of what was called, the name of the object ([na], the sentinel of
    package metrics, for a list), the verb and the answer.  A write that
    was made with a nil object has no name to report, and none is asked
    for: the method panics on [statefulSet.GetName()] before it reports. *)
Definition resourceOf (a : Action) : Resource :=
  match a with
  | GetAction r _ _ | CreateAction r _ _ | UpdateAction r _ _
  | DeleteAction r _ _ _ | ListAction r _ _ => r
  end.

Definition namespaceOf (a : Action) : string :=
  match a with
  | GetAction _ ns _ | CreateAction _ ns _ | UpdateAction _ ns _
  | DeleteAction _ ns _ _ | ListAction _ ns _ => ns
  end.

Definition target (na : string) (a : Action) : string :=
  match a with
  | GetAction _ _ n | DeleteAction _ _ n _ => n
  | CreateAction _ _ o | UpdateAction _ _ o => from_option appsv1.Name "" o
  | ListAction _ _ _ => na
  end.

Definition kindOf (r : Resource) : string :=
  match r with statefulsets => "StatefulSet" | pods => "Pod" end.

Definition reportFor (na : string) (c : Call) : Report :=
  {| rNamespace := namespaceOf (action c);
     rKind := kindOf (resourceOf (action c));
     rObject := target na (action c);
     rOperation := verb (action c);
     rErr := answer c |}.

(** The lines the run has written to the logger. *)
Definition logLines {World} (σ σ' : State World) : list Entry :=
  drop (length (logs σ)) (logs σ').

(** ** Further scenarios *)

(** A reactor that answers a verb on StatefulSets with a canned object and
    error, either of which may be nil. *)
Definition answering (c : fake.Clientset) (verb : string)
    (o : option appsv1.StatefulSet) (e : option error) : fake.Clientset :=
  {| fake.statefulSets := fake.statefulSets c; fake.podObjects := fake.podObjects c;
     fake.version := fake.version c;
     fake.reactors :=
       {| fake.onVerb := verb; fake.onResource := statefulsets;
          fake.object := o; fake.err := e |} :: fake.reactors c |}.

(** A StatefulSet whose selector is the nil pointer. *)
Definition unselective : appsv1.StatefulSet :=
  {| appsv1.Name := "unselective"; appsv1.Namespace := "ns-a";
     appsv1.ResourceVersion := "3";
     appsv1.Labels := ∅;
     appsv1.Spec :=
       {| appsv1.Replicas := None; appsv1.Selector := None;
          appsv1.ServiceName := "" |} |}.

Definition oddCluster : fake.Clientset :=
  {| fake.statefulSets := [unselective]; fake.podObjects := somePods;
     fake.version := 10; fake.reactors := [] |}.

Definition conflict : error := fake.NewConflict "redis-1".

(** The desired object with a namespace field that is not the namespace it
    is synchronized in. *)
Definition misplaced : appsv1.StatefulSet :=
  {| appsv1.Name := "redis-1"; appsv1.Namespace := "ns-b";
     appsv1.ResourceVersion := "";
     appsv1.Labels := ∅; appsv1.Spec := appsv1.Spec redis1 |}.

(** * Properties *)

Section Properties.

Context {World : Type}.
Variable NOT_APPLICABLE : string.
Variable rangeOrder : gmap string string -> list (string * string).
Hypothesis rangeOrder_perm : forall m, rangeOrder m ≡ₚ map_to_list m.
Variable s : StatefulSetService World.

Implicit Types (σ : State World) (p : loc) (namespace name : string).

(** ** How each method runs *)

Lemma GetStatefulSet_run namespace name σ :
  GetStatefulSet s namespace name σ =
  let '((statefulSet, err), w) :=
    kubernetes.StatefulSets_Get (kubeClient s) namespace name
      metav1.mkGetOptions (cluster σ) in
  (Ok (match err with Some _ => None | None => statefulSet end, err),
   noted σ w (getCall namespace name err) (report namespace name "GET" err)).
Proof.
  unfold GetStatefulSet, mbind, M_bind, invoke, recordMetrics, mret, M_ret.
  destruct (kubernetes.StatefulSets_Get _ _ _ _ _) as [[statefulSet err] w].
  simpl. destruct err; reflexivity.
Qed.

Lemma CreateStatefulSet_run namespace p obj σ :
  heap σ !! p = Some obj ->
  CreateStatefulSet s namespace p σ =
  let '((_, err), w) :=
    kubernetes.StatefulSets_Create (kubeClient s) namespace (Some obj)
      metav1.mkCreateOptions (cluster σ) in
  let σ' := noted σ w (createCall namespace obj err)
              (report namespace (appsv1.Name obj) "CREATE" err) in
  (Ok err,
   match err with
   | Some _ => σ'
   | None => logged σ' (entry (logger s) namespace (appsv1.Name obj)
                          "statefulSet created")
   end).
Proof.
  intros Hp.
  unfold CreateStatefulSet, mbind, M_bind, pointee, load, invoke,
    recordMetrics, Infof, mret, M_ret.
  rewrite Hp.
  destruct (kubernetes.StatefulSets_Create _ _ _ _ _) as [[created err] w].
  simpl. rewrite Hp. destruct err; reflexivity.
Qed.

Lemma UpdateStatefulSet_run namespace p obj σ :
  heap σ !! p = Some obj ->
  UpdateStatefulSet s namespace p σ =
  let '((_, err), w) :=
    kubernetes.StatefulSets_Update (kubeClient s) namespace (Some obj)
      metav1.mkUpdateOptions (cluster σ) in
  let σ' := noted σ w (updateCall namespace obj err)
              (report namespace (appsv1.Name obj) "UPDATE" err) in
  (Ok err,
   match err with
   | Some _ => σ'
   | None => logged σ' (entry (logger s) namespace (appsv1.Name obj)
                          "statefulSet updated")
   end).
Proof.
  intros Hp.
  unfold UpdateStatefulSet, mbind, M_bind, pointee, load, invoke,
    recordMetrics, Infof, mret, M_ret.
  rewrite Hp.
  destruct (kubernetes.StatefulSets_Update _ _ _ _ _) as [[updated err] w].
  simpl. rewrite Hp. destruct err; reflexivity.
Qed.

(** The three ways of [CreateOrUpdateStatefulSet], and the panic on a nil
    stored object. *)
Lemma CreateOrUpdateStatefulSet_run namespace p obj σ :
  heap σ !! p = Some obj ->
  CreateOrUpdateStatefulSet s namespace p σ =
  let '((stored, err), w) :=
    kubernetes.StatefulSets_Get (kubeClient s) namespace (appsv1.Name obj)
      metav1.mkGetOptions (cluster σ) in
  let σ1 := noted σ w (getCall namespace (appsv1.Name obj) err)
              (report namespace (appsv1.Name obj) "GET" err) in
  match err with
  | Some e =>
      if IsNotFound e then CreateStatefulSet s namespace p σ1 else (Ok err, σ1)
  | None =>
      match stored with
      | Some st =>
          UpdateStatefulSet s namespace p
            (written σ1 p (appsv1.set_ResourceVersion obj (appsv1.ResourceVersion st)))
      | None => (Panic nil_dereference, σ1)
      end
  end.
Proof.
  intros Hp.
  unfold CreateOrUpdateStatefulSet.
  unfold mbind at 1, M_bind at 1, load. rewrite Hp.
  unfold mbind at 1, M_bind at 1. rewrite GetStatefulSet_run.
  destruct (kubernetes.StatefulSets_Get _ _ _ _ _) as [[stored err] w].
  destruct err as [e|]; [ destruct (IsNotFound e); reflexivity | ].
  destruct stored as [st|]; reflexivity.
Qed.

Lemma CreateOrUpdateStatefulSet_nil namespace p σ :
  heap σ !! p = None ->
  CreateOrUpdateStatefulSet s namespace p σ = (Panic nil_dereference, σ).
Proof.
  intros Hp. unfold CreateOrUpdateStatefulSet, mbind, M_bind, load.
  by rewrite Hp.
Qed.

(** ** What a run has issued *)

Lemma issued_calls σ σ' (l : list Call) :
  calls σ' = calls σ ++ l -> issued σ σ' = l.
Proof. intros E. unfold issued. rewrite E. apply drop_app_length. Qed.

Lemma issued_refl σ : issued σ σ = [].
Proof. apply issued_calls. by rewrite app_nil_r. Qed.

Lemma calls_logged σ e : calls (logged σ e) = calls σ.
Proof. reflexivity. Qed.

(** The calls of a state reached by a create or an update: those of the
    state before, and the one call. *)
Lemma calls_after_write (err : option error) σ' (e : Entry) :
  calls (match err with Some _ => σ' | None => logged σ' e end) = calls σ'.
Proof. by destruct err. Qed.

Lemma heap_after_write (err : option error) σ' (e : Entry) :
  heap (match err with Some _ => σ' | None => logged σ' e end) = heap σ'.
Proof. by destruct err. Qed.

Lemma cluster_after_write (err : option error) σ' (e : Entry) :
  cluster (match err with Some _ => σ' | None => logged σ' e end) = cluster σ'.
Proof. by destruct err. Qed.

(** The run of the create path, from the state the fetch left. *)
Lemma create_path namespace p obj σ w e :
  heap σ !! p = Some obj ->
  let σ1 := noted σ w (getCall namespace (appsv1.Name obj) (Some e))
              (report namespace (appsv1.Name obj) "GET" (Some e)) in
  let createErr :=
    snd (fst (kubernetes.StatefulSets_Create (kubeClient s) namespace (Some obj)
                metav1.mkCreateOptions w)) in
  let out := CreateStatefulSet s namespace p σ1 in
  fst out = Ok createErr
  /\ calls (snd out) =
       calls σ ++ [getCall namespace (appsv1.Name obj) (Some e);
                   createCall namespace obj createErr]
  /\ heap (snd out) = heap σ.
Proof.
  intros Hp σ1 createErr out. subst out.
  rewrite (CreateStatefulSet_run namespace p obj σ1 Hp).
  subst createErr. simpl.
  destruct (kubernetes.StatefulSets_Create _ _ _ _ _) as [[created err] w'].
  simpl. rewrite calls_after_write, heap_after_write. simpl.
  by rewrite <- app_assoc.
Qed.

(** The run of the update path, from the state the fetch left. *)
Lemma update_path namespace p obj st σ w :
  let obj' := appsv1.set_ResourceVersion obj (appsv1.ResourceVersion st) in
  let σ1 := noted σ w (getCall namespace (appsv1.Name obj) None)
              (report namespace (appsv1.Name obj) "GET" None) in
  let updateErr :=
    snd (fst (kubernetes.StatefulSets_Update (kubeClient s) namespace (Some obj')
                metav1.mkUpdateOptions w)) in
  let out := UpdateStatefulSet s namespace p (written σ1 p obj') in
  fst out = Ok updateErr
  /\ calls (snd out) =
       calls σ ++ [getCall namespace (appsv1.Name obj) None;
                   updateCall namespace obj' updateErr]
  /\ heap (snd out) = <[p := obj']> (heap σ).
Proof.
  intros obj' σ1 updateErr out. subst out.
  rewrite (UpdateStatefulSet_run namespace p obj' (written σ1 p obj'));
    [ | apply lookup_insert_eq ].
  subst updateErr. simpl.
  destruct (kubernetes.StatefulSets_Update _ _ _ _ _) as [[updated err] w'].
  simpl. rewrite calls_after_write, heap_after_write. simpl.
  by rewrite <- app_assoc.
Qed.

(** ** The create-or-update protocol *)

(** C1.  When the fetch of (namespace, name) fails with a not-found error,
    [CreateOrUpdateStatefulSet] issues the fetch and then create, once, and
    never update; what it returns is what create answered: nil when create
    succeeded, the error of create when it failed. *)
Theorem CreateOrUpdate_absent_creates namespace p desired stored e w σ :
  heap σ !! p = Some desired ->
  kubernetes.StatefulSets_Get (kubeClient s) namespace (appsv1.Name desired)
    metav1.mkGetOptions (cluster σ) = ((stored, Some e), w) ->
  IsNotFound e = true ->
  let out := run (CreateOrUpdateStatefulSet s namespace p) σ in
  let createErr :=
    snd (fst (kubernetes.StatefulSets_Create (kubeClient s) namespace (Some desired)
                metav1.mkCreateOptions w)) in
  issued σ (snd out) =
    [getCall namespace (appsv1.Name desired) (Some e);
     createCall namespace desired createErr]
  /\ count isCreate (issued σ (snd out)) = 1
  /\ count isUpdate (issued σ (snd out)) = 0
  /\ fst out = Ok createErr.
Proof.
  intros Hp Hget Hnf out createErr. subst out. unfold run.
  rewrite (CreateOrUpdateStatefulSet_run namespace p desired σ Hp), Hget.
  cbv beta iota zeta. rewrite Hnf.
  destruct (create_path namespace p desired σ w e Hp) as (Hret & Hcalls & _).
  rewrite (issued_calls _ _ _ Hcalls).
  split_and!; [ reflexivity | reflexivity | reflexivity | exact Hret ].
Qed.

(** C2.  When the fetch fails with an error that is not not-found, that
    error is returned, the fetch is the only call made, neither create nor
    update is issued, and cluster and caller's object are as the fetch left
    them. *)
Theorem CreateOrUpdate_fetch_error_stops namespace p desired stored e w σ :
  heap σ !! p = Some desired ->
  kubernetes.StatefulSets_Get (kubeClient s) namespace (appsv1.Name desired)
    metav1.mkGetOptions (cluster σ) = ((stored, Some e), w) ->
  IsNotFound e = false ->
  let out := run (CreateOrUpdateStatefulSet s namespace p) σ in
  fst out = Ok (Some e)
  /\ issued σ (snd out) = [getCall namespace (appsv1.Name desired) (Some e)]
  /\ count isCreate (issued σ (snd out)) = 0
  /\ count isUpdate (issued σ (snd out)) = 0
  /\ cluster (snd out) = w
  /\ heap (snd out) = heap σ.
Proof.
  intros Hp Hget Hnf out. subst out. unfold run.
  rewrite (CreateOrUpdateStatefulSet_run namespace p desired σ Hp), Hget.
  cbv beta iota zeta. rewrite Hnf.
  simpl. rewrite (issued_calls σ _ [getCall namespace (appsv1.Name desired) (Some e)])
    by reflexivity.
  split_and!; reflexivity.
Qed.

(** C3.  When the fetch succeeds with a stored object, the object handed to
    update is the desired one under the stored object's version token,
    whatever token the caller had put on it. *)
Theorem CreateOrUpdate_update_carries_stored_token namespace p desired stored w σ :
  heap σ !! p = Some desired ->
  kubernetes.StatefulSets_Get (kubeClient s) namespace (appsv1.Name desired)
    metav1.mkGetOptions (cluster σ) = ((Some stored, None), w) ->
  let out := run (CreateOrUpdateStatefulSet s namespace p) σ in
  (exists obj err,
     issued σ (snd out) =
       [getCall namespace (appsv1.Name desired) None;
        updateCall namespace obj err]
     /\ appsv1.ResourceVersion obj = appsv1.ResourceVersion stored)
  /\ (forall c r ns o,
        c ∈ issued σ (snd out) -> action c = UpdateAction r ns o ->
        appsv1.ResourceVersion <$> o = Some (appsv1.ResourceVersion stored)).
Proof.
  intros Hp Hget out. subst out. unfold run.
  rewrite (CreateOrUpdateStatefulSet_run namespace p desired σ Hp), Hget.
  cbv beta iota zeta.
  destruct (update_path namespace p desired stored σ w) as (_ & Hcalls & _).
  rewrite (issued_calls _ _ _ Hcalls). split.
  - eexists _, _. split; [ reflexivity | reflexivity ].
  - intros c r ns o Hc Hact.
    apply elem_of_cons in Hc as [-> | Hc]; [ discriminate | ].
    apply elem_of_cons in Hc as [-> | Hc]; [ | by apply elem_of_nil in Hc ].
    simpl in Hact. by inversion Hact.
Qed.

(** C4.  In every run of [CreateOrUpdateStatefulSet]: an update is preceded
    by the fetch of the object, which answered without error and with a
    stored object whose version token the update carries; and where a
    create is issued, no fetch of the run has answered without error. *)
Theorem CreateOrUpdate_write_follows_fetch namespace p σ :
  let out := run (CreateOrUpdateStatefulSet s namespace p) σ in
  let tr := issued σ (snd out) in
  (forall i c, tr !! i = Some c -> isUpdate c = true ->
     exists desired stored w r ns o,
       heap σ !! p = Some desired
       /\ kubernetes.StatefulSets_Get (kubeClient s) namespace
            (appsv1.Name desired) metav1.mkGetOptions (cluster σ)
          = ((Some stored, None), w)
       /\ tr !! 0 = Some (getCall namespace (appsv1.Name desired) None)
       /\ 0 < i
       /\ action c = UpdateAction r ns (Some o)
       /\ appsv1.ResourceVersion o = appsv1.ResourceVersion stored)
  /\ (forall i c, tr !! i = Some c -> isCreate c = true ->
       forall j g, tr !! j = Some g -> isGet g = true -> answer g <> None).
Proof.
  intros out tr. subst tr out. unfold run.
  destruct (heap σ !! p) as [desired|] eqn:Hp.
  2:{ rewrite (CreateOrUpdateStatefulSet_nil namespace p σ Hp). simpl.
      rewrite issued_refl. split; intros i c Hi; by rewrite lookup_nil in Hi. }
  rewrite (CreateOrUpdateStatefulSet_run namespace p desired σ Hp).
  destruct (kubernetes.StatefulSets_Get _ _ _ _ _) as [[stored err] w] eqn:Hget.
  cbv beta iota zeta.
  destruct err as [e|].
  - destruct (IsNotFound e) eqn:Hnf.
    + destruct (create_path namespace p desired σ w e Hp) as (_ & Hcalls & _).
      rewrite (issued_calls _ _ _ Hcalls). split.
      * intros [|[|i]] c Hi Hu; simpl in Hi; try discriminate;
          inversion Hi; subst c; discriminate.
      * intros i c _ _ [|[|j]] g Hj Hg; simpl in Hj; try discriminate;
          inversion Hj; subst g; [ discriminate | discriminate ].
    + simpl. rewrite (issued_calls σ _ [getCall namespace (appsv1.Name desired) (Some e)])
        by reflexivity.
      split.
      * intros [|i] c Hi Hu; simpl in Hi; try discriminate.
        inversion Hi; subst c; discriminate.
      * intros [|i] c Hi Hc; simpl in Hi; try discriminate.
        inversion Hi; subst c; discriminate.
  - destruct stored as [st|].
    + destruct (update_path namespace p desired st σ w) as (_ & Hcalls & _).
      rewrite (issued_calls _ _ _ Hcalls). split.
      * intros [|[|i]] c Hi Hu; simpl in Hi; try discriminate;
          inversion Hi; subst c; try discriminate.
        eexists desired, st, w, _, _, _.
        split_and!; [ reflexivity | exact Hget | reflexivity | lia
                    | reflexivity | reflexivity ].
      * intros [|[|i]] c Hi Hc; simpl in Hi; try discriminate;
          inversion Hi; subst c; discriminate.
    + simpl. rewrite (issued_calls σ _ [getCall namespace (appsv1.Name desired) None])
        by reflexivity.
      split.
      * intros [|i] c Hi Hu; simpl in Hi; try discriminate.
        inversion Hi; subst c; discriminate.
      * intros [|i] c Hi Hc; simpl in Hi; try discriminate.
        inversion Hi; subst c; discriminate.
Qed.

(** ** Delete *)

(** C6.  [DeleteStatefulSet] issues one delete, and the options of that
    delete ask for foreground propagation: the policy is never left to the
    server's default (a nil pointer), and is neither orphan nor
    background. *)
Theorem DeleteStatefulSet_foreground namespace name σ :
  let out := run (DeleteStatefulSet s namespace name) σ in
  (exists err,
     issued σ (snd out) =
       [deleteCall namespace name
          {| metav1.PropagationPolicy := Some metav1.DeletePropagationForeground |}
          err]
     /\ fst out = Ok err)
  /\ (forall c r ns n opts,
        c ∈ issued σ (snd out) -> action c = DeleteAction r ns n opts ->
        metav1.PropagationPolicy opts = Some metav1.DeletePropagationForeground).
Proof.
  intros out. subst out.
  unfold run, DeleteStatefulSet, mbind, M_bind, invoke, recordMetrics, mret, M_ret.
  destruct (kubernetes.StatefulSets_Delete _ _ _ _ _) as [err w]. simpl.
  rewrite (issued_calls σ _
             [deleteCall namespace name
                {| metav1.PropagationPolicy := Some metav1.DeletePropagationForeground |}
                err]) by reflexivity.
  split.
  - exists err. by split.
  - intros c r ns n opts Hc Hact.
    apply list_elem_of_singleton in Hc as ->. simpl in Hact. by inversion Hact.
Qed.

(** ** The pods of a StatefulSet *)

Lemma selectorLabels_from (l : list (string * string)) (acc : list string) :
  fold_left (fun labels '(k, v) => labels ++ [Sprintf_eq k v]) l acc =
  acc ++ map (fun kv => Sprintf_eq (fst kv) (snd kv)) l.
Proof.
  revert acc. induction l as [|[k v] l IH]; intros acc; simpl.
  - by rewrite app_nil_r.
  - rewrite IH. by rewrite <- app_assoc.
Qed.

(** The loop collects one [key=value] per entry, in the order of the range. *)
Lemma selectorLabels_map (m : gmap string string) :
  selectorLabels rangeOrder m =
  map (fun kv => Sprintf_eq (fst kv) (snd kv)) (rangeOrder m).
Proof. unfold selectorLabels. by rewrite selectorLabels_from. Qed.

Lemma selectorLabels_empty : selectorLabels rangeOrder ∅ = [].
Proof.
  rewrite selectorLabels_map.
  pose proof (rangeOrder_perm ∅) as Hperm. rewrite map_to_list_empty in Hperm.
  apply Permutation_nil_r in Hperm. by rewrite Hperm.
Qed.

Lemma GetStatefulSetPods_run namespace name σ :
  GetStatefulSetPods rangeOrder s namespace name σ =
  let '((statefulSet, err), w) :=
    kubernetes.StatefulSets_Get (kubeClient s) namespace name
      metav1.mkGetOptions (cluster σ) in
  let σ1 := noted σ w (getCall namespace name err) (report namespace name "GET" err) in
  match err with
  | Some _ => (Ok (None, err), σ1)
  | None =>
      match statefulSet with
      | None => (Panic nil_dereference, σ1)
      | Some o =>
          match appsv1.Selector (appsv1.Spec o) with
          | None => (Panic nil_dereference, σ1)
          | Some sel =>
              let selector := Join (selectorLabels rangeOrder (metav1.MatchLabels sel)) "," in
              let '(podList, w') :=
                kubernetes.Pods_List (kubeClient s) namespace
                  {| metav1.LabelSelector := selector |} w in
              (Ok podList,
               {| cluster := w'; heap := heap σ;
                  calls := (calls σ ++ [getCall namespace name None])
                           ++ [listPodsCall namespace selector (snd podList)];
                  reports := reports σ ++ [report namespace name "GET" None];
                  logs := logs σ |})
          end
      end
  end.
Proof.
  unfold GetStatefulSetPods. unfold mbind at 1, M_bind at 1.
  rewrite GetStatefulSet_run.
  destruct (kubernetes.StatefulSets_Get _ _ _ _ _) as [[statefulSet err] w].
  destruct err as [e|]; [ reflexivity | ].
  destruct statefulSet as [o|]; [ | reflexivity ].
  unfold mbind, M_bind, deref, mret, M_ret, invoke. simpl.
  destruct (appsv1.Selector (appsv1.Spec o)) as [sel|]; [ | reflexivity ].
  simpl. destruct (kubernetes.Pods_List _ _ _ _) as [podList w']. reflexivity.
Qed.

(** X6.  A fetched StatefulSet whose [Spec.Selector] is nil: the range over
    [Selector.MatchLabels] dereferences it, and the method panics after the
    fetch, before any list. *)
Lemma GetStatefulSetPods_nil_selector_panics namespace name sts w σ :
  kubernetes.StatefulSets_Get (kubeClient s) namespace name
    metav1.mkGetOptions (cluster σ) = ((Some sts, None), w) ->
  appsv1.Selector (appsv1.Spec sts) = None ->
  let out := run (GetStatefulSetPods rangeOrder s namespace name) σ in
  fst out = Panic nil_dereference
  /\ issued σ (snd out) = [getCall namespace name None].
Proof.
  intros Hget Hsel out. subst out. unfold run.
  rewrite GetStatefulSetPods_run, Hget. cbv beta iota zeta. rewrite Hsel.
  split; [ reflexivity | by apply issued_calls ].
Qed.

(** C7, as the code has it.  When the fetch of the StatefulSet succeeds and
    the StatefulSet has a selector, [GetStatefulSetPods] concatenates one
    [key=value] per entry of its match labels, the entries taken in some
    order and a comma between them, issues one list of pods in the same
    namespace under that selector, and returns what the list answered. *)
Theorem GetStatefulSetPods_lists_by_selector namespace name sts sel w σ :
  kubernetes.StatefulSets_Get (kubeClient s) namespace name
    metav1.mkGetOptions (cluster σ) = ((Some sts, None), w) ->
  appsv1.Selector (appsv1.Spec sts) = Some sel ->
  let out := run (GetStatefulSetPods rangeOrder s namespace name) σ in
  exists kvs,
    kvs ≡ₚ map_to_list (metav1.MatchLabels sel)
    /\ let selector :=
         String.concat "," (map (fun kv => fst kv +:+ "=" +:+ snd kv) kvs) in
       let listed :=
         fst (kubernetes.Pods_List (kubeClient s) namespace
                {| metav1.LabelSelector := selector |} w) in
       issued σ (snd out) =
         [getCall namespace name None; listPodsCall namespace selector (snd listed)]
       /\ count isList (issued σ (snd out)) = 1
       /\ fst out = Ok listed.
Proof.
  intros Hget Hsel out. subst out. unfold run.
  rewrite GetStatefulSetPods_run, Hget. cbv beta iota zeta. rewrite Hsel.
  exists (rangeOrder (metav1.MatchLabels sel)).
  split; [ apply rangeOrder_perm | ].
  (* [strings.Join] is the concatenation of the standard library, the
     separator between the elements *)
  assert (forall l sep, Join l sep = String.concat sep l) as Join_concat.
  { intros l sep. induction l as [|x l IH]; [ reflexivity | ].
    destruct l as [|y l]; [ reflexivity | ].
    change (x +:+ sep +:+ Join (y :: l) sep
            = x +:+ sep +:+ String.concat sep (y :: l)).
    by rewrite IH. }
  rewrite selectorLabels_map, Join_concat. unfold Sprintf_eq.
  destruct (kubernetes.Pods_List _ _ _ _) as [podList w']. simpl.
  rewrite (issued_calls σ _
             [getCall namespace name None;
              listPodsCall namespace
                (String.concat ","
                   (map (fun kv => fst kv +:+ "=" +:+ snd kv)
                      (rangeOrder (metav1.MatchLabels sel))))
                (snd podList)])
    by (simpl; by rewrite <- app_assoc).
  split_and!; reflexivity.
Qed.

(** C10.  When the selector of the fetched StatefulSet has no match labels,
    [GetStatefulSetPods] lists the pods of the namespace under the empty
    selector and returns the answer as it is: where the store answers the
    empty selector with every pod of the namespace, those are what the
    caller receives. *)
Theorem GetStatefulSetPods_no_labels_lists_all namespace name sts sel w allPods σ :
  kubernetes.StatefulSets_Get (kubeClient s) namespace name
    metav1.mkGetOptions (cluster σ) = ((Some sts, None), w) ->
  appsv1.Selector (appsv1.Spec sts) = Some sel ->
  metav1.MatchLabels sel = ∅ ->
  fst (kubernetes.Pods_List (kubeClient s) namespace
         {| metav1.LabelSelector := "" |} w)
    = (Some {| corev1.Items := allPods |}, None) ->
  let out := run (GetStatefulSetPods rangeOrder s namespace name) σ in
  issued σ (snd out) = [getCall namespace name None; listPodsCall namespace "" None]
  /\ fst out = Ok (Some {| corev1.Items := allPods |}, None).
Proof.
  intros Hget Hsel Hempty Hall out. subst out. unfold run.
  rewrite GetStatefulSetPods_run, Hget. cbv beta iota zeta.
  rewrite Hsel, Hempty, selectorLabels_empty. simpl.
  destruct (kubernetes.Pods_List _ _ _ _) as [podList w']. simpl in *.
  subst podList.
  rewrite (issued_calls σ _
             [getCall namespace name None; listPodsCall namespace "" None])
    by (simpl; by rewrite <- app_assoc).
  by split.
Qed.

(** X12.  A fetch that answers neither an object nor an error: reading the
    stored version token panics, and nothing is written. *)
Lemma CreateOrUpdate_nil_stored_panics namespace p desired w σ :
  heap σ !! p = Some desired ->
  kubernetes.StatefulSets_Get (kubeClient s) namespace (appsv1.Name desired)
    metav1.mkGetOptions (cluster σ) = ((None, None), w) ->
  let out := run (CreateOrUpdateStatefulSet s namespace p) σ in
  fst out = Panic nil_dereference
  /\ issued σ (snd out) = [getCall namespace (appsv1.Name desired) None]
  /\ heap (snd out) = heap σ.
Proof.
  intros Hp Hget out. subst out. unfold run.
  rewrite (CreateOrUpdateStatefulSet_run namespace p desired σ Hp), Hget.
  cbv beta iota zeta.
  split_and!; [ reflexivity | by apply issued_calls | reflexivity ].
Qed.

(** ** The caller's object *)

(** C9.  [CreateOrUpdateStatefulSet] leaves every other cell of the heap
    alone and, in the caller's object, every field but the version token:
    the object ends as it was, or, where the fetch answered a stored
    object, as it was under that object's version token; the token it ends
    with is the stored object's on that path and its own on every
    other. *)
Theorem CreateOrUpdate_mutates_token_only namespace p desired σ :
  heap σ !! p = Some desired ->
  let out := run (CreateOrUpdateStatefulSet s namespace p) σ in
  let fetched :=
    fst (kubernetes.StatefulSets_Get (kubeClient s) namespace
           (appsv1.Name desired) metav1.mkGetOptions (cluster σ)) in
  (forall q, q <> p -> heap (snd out) !! q = heap σ !! q)
  /\ exists final,
       heap (snd out) !! p = Some final
       /\ appsv1.Name final = appsv1.Name desired
       /\ appsv1.Namespace final = appsv1.Namespace desired
       /\ appsv1.Labels final = appsv1.Labels desired
       /\ appsv1.Spec final = appsv1.Spec desired
       /\ appsv1.ResourceVersion final =
            match fetched with
            | (Some stored, None) => appsv1.ResourceVersion stored
            | _ => appsv1.ResourceVersion desired
            end
       /\ final = match fetched with
                  | (Some stored, None) =>
                      appsv1.set_ResourceVersion desired
                        (appsv1.ResourceVersion stored)
                  | _ => desired
                  end.
Proof.
  intros Hp out fetched. subst out fetched. unfold run.
  rewrite (CreateOrUpdateStatefulSet_run namespace p desired σ Hp).
  destruct (kubernetes.StatefulSets_Get _ _ _ _ _) as [[stored err] w].
  cbv beta iota zeta. simpl fst.
  destruct err as [e|].
  - assert (forall out : Result (option error) * State World,
              heap (snd out) = heap σ ->
              (forall q, q <> p -> heap (snd out) !! q = heap σ !! q)
              /\ exists final,
                   heap (snd out) !! p = Some final
                   /\ appsv1.Name final = appsv1.Name desired
                   /\ appsv1.Namespace final = appsv1.Namespace desired
                   /\ appsv1.Labels final = appsv1.Labels desired
                   /\ appsv1.Spec final = appsv1.Spec desired
                   /\ appsv1.ResourceVersion final = appsv1.ResourceVersion desired
                   /\ final = desired) as Hsame.
    { intros out ->. split; [ done | ]. exists desired. by split_and!. }
    destruct stored; (destruct (IsNotFound e);
      [ apply Hsame, (create_path namespace p desired σ w e Hp)
      | by apply Hsame ]).
  - destruct stored as [st|].
    + destruct (update_path namespace p desired st σ w) as (_ & _ & Hheap).
      rewrite Hheap. split.
      * intros q Hq. by rewrite lookup_insert_ne.
      * eexists. split; [ apply lookup_insert_eq | ]. by split_and!.
    + simpl. split; [ done | ]. exists desired. by split_and!.
Qed.

(** ** Errors *)

Lemma NoDup_verbs_two (a b : string) : a <> b -> NoDup [a; b].
Proof.
  intros Hab. apply NoDup_cons. split.
  - by intros ->%list_elem_of_singleton.
  - apply NoDup_singleton.
Qed.

Lemma verbatim_nil (ret : Result (option error)) : verbatim ret [].
Proof.
  split_and!.
  - intros c e Hc. by apply elem_of_nil in Hc.
  - intros c Hc. by apply elem_of_nil in Hc.
  - apply NoDup_nil_2.
Qed.

(** A single call whose answer is returned. *)
Lemma verbatim_one (c : Call) : verbatim (Ok (answer c)) [c].
Proof.
  split_and!.
  - intros c' e ->%list_elem_of_singleton He _. by rewrite He.
  - by intros c' ->%list_elem_of_singleton _.
  - apply NoDup_singleton.
Qed.

(** A fetch that answered nothing to hand on, then a write whose answer is
    returned. *)
Lemma verbatim_fetch_then (g c : Call) :
  isGet g = true -> isWrite g = false ->
  (answer g = None \/ consumed g = true) ->
  verb (action g) <> verb (action c) ->
  verbatim (Ok (answer c)) [g; c].
Proof.
  intros Hg Hw Hans Hverbs. split_and!.
  - intros c' e Hc He Hcons.
    apply elem_of_cons in Hc as [-> | ->%list_elem_of_singleton].
    + destruct Hans as [Hnone | Hc']; congruence.
    + by rewrite He.
  - intros c' Hc Hwrite.
    apply elem_of_cons in Hc as [-> | ->%list_elem_of_singleton]; congruence.
  - by apply NoDup_verbs_two.
Qed.

Lemma CreateStatefulSet_verbatim namespace p obj σ :
  heap σ !! p = Some obj ->
  let out := run (CreateStatefulSet s namespace p) σ in
  verbatim (fst out) (issued σ (snd out)).
Proof.
  intros Hp out. subst out. unfold run.
  rewrite (CreateStatefulSet_run namespace p obj σ Hp).
  destruct (kubernetes.StatefulSets_Create _ _ _ _ _) as [[created err] w].
  cbv beta iota zeta. simpl fst. simpl snd.
  rewrite (issued_calls σ _ [createCall namespace obj err])
    by (by rewrite calls_after_write).
  apply (verbatim_one (createCall namespace obj err)).
Qed.

Lemma UpdateStatefulSet_verbatim namespace p obj σ :
  heap σ !! p = Some obj ->
  let out := run (UpdateStatefulSet s namespace p) σ in
  verbatim (fst out) (issued σ (snd out)).
Proof.
  intros Hp out. subst out. unfold run.
  rewrite (UpdateStatefulSet_run namespace p obj σ Hp).
  destruct (kubernetes.StatefulSets_Update _ _ _ _ _) as [[updated err] w].
  cbv beta iota zeta. simpl fst. simpl snd.
  rewrite (issued_calls σ _ [updateCall namespace obj err])
    by (by rewrite calls_after_write).
  apply (verbatim_one (updateCall namespace obj err)).
Qed.

(** On a nil pointer the two writes still make their call, with the nil
    object, and panic at the dereference that follows it
    ([statefulSet.GetName()]): whatever the call answered is lost, and
    nothing is reported. *)
Lemma CreateStatefulSet_nil namespace p σ :
  heap σ !! p = None ->
  CreateStatefulSet s namespace p σ =
  let '((_, err), w) :=
    kubernetes.StatefulSets_Create (kubeClient s) namespace None
      metav1.mkCreateOptions (cluster σ) in
  (Panic nil_dereference,
   {| cluster := w; heap := heap σ;
      calls := calls σ ++
               [{| action := CreateAction statefulsets namespace None;
                   answer := err |}];
      reports := reports σ; logs := logs σ |}).
Proof.
  intros Hp.
  unfold CreateStatefulSet, mbind, M_bind, pointee, load, invoke.
  rewrite Hp.
  destruct (kubernetes.StatefulSets_Create _ _ _ _ _) as [[created err] w].
  simpl. by rewrite Hp.
Qed.

Lemma UpdateStatefulSet_nil namespace p σ :
  heap σ !! p = None ->
  UpdateStatefulSet s namespace p σ =
  let '((_, err), w) :=
    kubernetes.StatefulSets_Update (kubeClient s) namespace None
      metav1.mkUpdateOptions (cluster σ) in
  (Panic nil_dereference,
   {| cluster := w; heap := heap σ;
      calls := calls σ ++
               [{| action := UpdateAction statefulsets namespace None;
                   answer := err |}];
      reports := reports σ; logs := logs σ |}).
Proof.
  intros Hp.
  unfold UpdateStatefulSet, mbind, M_bind, pointee, load, invoke.
  rewrite Hp.
  destruct (kubernetes.StatefulSets_Update _ _ _ _ _) as [[updated err] w].
  simpl. by rewrite Hp.
Qed.

Lemma DeleteStatefulSet_verbatim namespace name σ :
  let out := run (DeleteStatefulSet s namespace name) σ in
  verbatim (fst out) (issued σ (snd out)).
Proof.
  intros out. subst out.
  unfold run, DeleteStatefulSet, mbind, M_bind, invoke, recordMetrics, mret, M_ret.
  destruct (kubernetes.StatefulSets_Delete _ _ _ _ _) as [err w]. simpl.
  rewrite (issued_calls σ _
             [deleteCall namespace name
                {| metav1.PropagationPolicy := Some metav1.DeletePropagationForeground |}
                err]) by reflexivity.
  apply (verbatim_one (deleteCall namespace name _ err)).
Qed.

Lemma CreateOrUpdateStatefulSet_verbatim namespace p σ :
  let out := run (CreateOrUpdateStatefulSet s namespace p) σ in
  verbatim (fst out) (issued σ (snd out)).
Proof.
  intros out. subst out. unfold run.
  destruct (heap σ !! p) as [desired|] eqn:Hp.
  2:{ rewrite (CreateOrUpdateStatefulSet_nil namespace p σ Hp). simpl.
      rewrite issued_refl. apply verbatim_nil. }
  rewrite (CreateOrUpdateStatefulSet_run namespace p desired σ Hp).
  destruct (kubernetes.StatefulSets_Get _ _ _ _ _) as [[stored err] w].
  cbv beta iota zeta.
  destruct err as [e|].
  - destruct (IsNotFound e) eqn:Hnf.
    + destruct (create_path namespace p desired σ w e Hp) as (Hret & Hcalls & _).
      rewrite (issued_calls _ _ _ Hcalls), Hret.
      apply (verbatim_fetch_then _ (createCall namespace desired _));
        [ reflexivity | reflexivity | right; unfold consumed; simpl; by rewrite Hnf
        | discriminate ].
    + simpl.
      rewrite (issued_calls σ _ [getCall namespace (appsv1.Name desired) (Some e)])
        by reflexivity.
      apply (verbatim_one (getCall namespace (appsv1.Name desired) (Some e))).
  - destruct stored as [st|].
    + destruct (update_path namespace p desired st σ w) as (Hret & Hcalls & _).
      rewrite (issued_calls _ _ _ Hcalls), Hret.
      apply (verbatim_fetch_then _ (updateCall namespace _ _));
        [ reflexivity | reflexivity | by left | discriminate ].
    + simpl.
      rewrite (issued_calls σ _ [getCall namespace (appsv1.Name desired) None])
        by reflexivity.
      split_and!.
      * intros c e ->%list_elem_of_singleton He; discriminate.
      * intros c ->%list_elem_of_singleton Hw; discriminate.
      * apply NoDup_singleton.
Qed.

(** C8, as the code has it.  Every error a call on the store answers, the
    not-found of a fetch apart, is returned to the caller as the very value
    the call answered, with nothing added to it; no verb is issued twice in
    one operation; and what a write answered, error or nil, is what the
    operation returns.  So it is for [CreateOrUpdateStatefulSet] and
    [DeleteStatefulSet] in every run, and for [UpdateStatefulSet] and
    [CreateStatefulSet] called on their own with an object that is not
    nil. *)
Theorem errors_returned_verbatim namespace name p σ :
  (let out := run (CreateOrUpdateStatefulSet s namespace p) σ in
   verbatim (fst out) (issued σ (snd out)))
  /\ (let out := run (DeleteStatefulSet s namespace name) σ in
      verbatim (fst out) (issued σ (snd out)))
  /\ (forall obj, heap σ !! p = Some obj ->
        (let out := run (UpdateStatefulSet s namespace p) σ in
         verbatim (fst out) (issued σ (snd out)))
        /\ (let out := run (CreateStatefulSet s namespace p) σ in
            verbatim (fst out) (issued σ (snd out)))).
Proof.
  split; [ | split ].
  - apply CreateOrUpdateStatefulSet_verbatim.
  - apply DeleteStatefulSet_verbatim.
  - intros obj Hp. split.
    + by apply (UpdateStatefulSet_verbatim namespace p obj).
    + by apply (CreateStatefulSet_verbatim namespace p obj).
Qed.

(** ** Reports *)

Lemma reported_reports σ σ' (l : list Report) :
  reports σ' = reports σ ++ l -> reported σ σ' = l.
Proof. intros E. unfold reported. rewrite E. apply drop_app_length. Qed.

Lemma reports_after_write (err : option error) σ' (e : Entry) :
  reports (match err with Some _ => σ' | None => logged σ' e end) = reports σ'.
Proof. by destruct err. Qed.

(** Each of the methods that make one call on the store hands one report
    of that call to the recorder. *)
Lemma GetStatefulSet_reported namespace name σ :
  let σ' := snd (run (GetStatefulSet s namespace name) σ) in
  length (issued σ σ') = 1
  /\ reported σ σ' = map (reportFor NOT_APPLICABLE) (issued σ σ').
Proof.
  intros σ'. subst σ'. unfold run. rewrite GetStatefulSet_run.
  destruct (kubernetes.StatefulSets_Get _ _ _ _ _) as [[statefulSet err] w].
  simpl.
  rewrite (issued_calls σ _ [getCall namespace name err]) by reflexivity.
  rewrite (reported_reports σ _ [report namespace name "GET" err]) by reflexivity.
  by split.
Qed.

Lemma DeleteStatefulSet_reported namespace name σ :
  let σ' := snd (run (DeleteStatefulSet s namespace name) σ) in
  length (issued σ σ') = 1
  /\ reported σ σ' = map (reportFor NOT_APPLICABLE) (issued σ σ').
Proof.
  intros σ'. subst σ'.
  unfold run, DeleteStatefulSet, mbind, M_bind, invoke, recordMetrics, mret, M_ret.
  destruct (kubernetes.StatefulSets_Delete _ _ _ _ _) as [err w]. simpl.
  rewrite (issued_calls σ _
             [deleteCall namespace name
                {| metav1.PropagationPolicy := Some metav1.DeletePropagationForeground |}
                err]) by reflexivity.
  rewrite (reported_reports σ _ [report namespace name "DELETE" err]) by reflexivity.
  by split.
Qed.

Lemma ListStatefulSets_reported namespace σ :
  let σ' := snd (run (ListStatefulSets NOT_APPLICABLE s namespace) σ) in
  length (issued σ σ') = 1
  /\ reported σ σ' = map (reportFor NOT_APPLICABLE) (issued σ σ').
Proof.
  intros σ'. subst σ'.
  unfold run, ListStatefulSets, mbind, M_bind, invoke, recordMetrics, mret, M_ret.
  destruct (kubernetes.StatefulSets_List _ _ _ _) as [[stsList err] w]. simpl.
  rewrite (issued_calls σ _
             [{| action := ListAction statefulsets namespace {| metav1.LabelSelector := "" |};
                 answer := err |}]) by reflexivity.
  rewrite (reported_reports σ _ [report namespace NOT_APPLICABLE "LIST" err])
    by reflexivity.
  by split.
Qed.

Lemma CreateStatefulSet_reported namespace p obj σ :
  heap σ !! p = Some obj ->
  let σ' := snd (run (CreateStatefulSet s namespace p) σ) in
  length (issued σ σ') = 1
  /\ reported σ σ' = map (reportFor NOT_APPLICABLE) (issued σ σ').
Proof.
  intros Hp σ'. subst σ'. unfold run.
  rewrite (CreateStatefulSet_run namespace p obj σ Hp).
  destruct (kubernetes.StatefulSets_Create _ _ _ _ _) as [[created err] w].
  cbv beta iota zeta. simpl snd.
  rewrite (issued_calls σ _ [createCall namespace obj err])
    by (by rewrite calls_after_write).
  rewrite (reported_reports σ _ [report namespace (appsv1.Name obj) "CREATE" err])
    by (by rewrite reports_after_write).
  by split.
Qed.

Lemma UpdateStatefulSet_reported namespace p obj σ :
  heap σ !! p = Some obj ->
  let σ' := snd (run (UpdateStatefulSet s namespace p) σ) in
  length (issued σ σ') = 1
  /\ reported σ σ' = map (reportFor NOT_APPLICABLE) (issued σ σ').
Proof.
  intros Hp σ'. subst σ'. unfold run.
  rewrite (UpdateStatefulSet_run namespace p obj σ Hp).
  destruct (kubernetes.StatefulSets_Update _ _ _ _ _) as [[updated err] w].
  cbv beta iota zeta. simpl snd.
  rewrite (issued_calls σ _ [updateCall namespace obj err])
    by (by rewrite calls_after_write).
  rewrite (reported_reports σ _ [report namespace (appsv1.Name obj) "UPDATE" err])
    by (by rewrite reports_after_write).
  by split.
Qed.

(** [GetStatefulSetPods], past the fetch and with a selector at hand, makes
    two calls on the store and one report: that of the fetch. *)
Lemma GetStatefulSetPods_reported namespace name sts sel w σ :
  kubernetes.StatefulSets_Get (kubeClient s) namespace name
    metav1.mkGetOptions (cluster σ) = ((Some sts, None), w) ->
  appsv1.Selector (appsv1.Spec sts) = Some sel ->
  let σ' := snd (run (GetStatefulSetPods rangeOrder s namespace name) σ) in
  length (issued σ σ') = 2
  /\ reported σ σ' = [report namespace name "GET" None].
Proof.
  intros Hget Hsel σ'. subst σ'. unfold run.
  rewrite GetStatefulSetPods_run, Hget. cbv beta iota zeta. rewrite Hsel.
  destruct (kubernetes.Pods_List _ _ _ _) as [podList w']. simpl.
  split.
  - unfold issued. simpl. rewrite <- app_assoc, drop_app_length. reflexivity.
  - by apply reported_reports.
Qed.

(** ** Beyond the protocol: the single methods and how they combine *)

Lemma logLines_logs σ σ' (l : list Entry) :
  logs σ' = logs σ ++ l -> logLines σ σ' = l.
Proof. intros E. unfold logLines. rewrite E. apply drop_app_length. Qed.

Lemma logLines_same σ σ' : logs σ' = logs σ -> logLines σ σ' = [].
Proof. intros E. apply logLines_logs. by rewrite app_nil_r. Qed.

Lemma logs_after_write (err : option error) σ' (e : Entry) :
  logs (match err with Some _ => σ' | None => logged σ' e end) =
  logs σ' ++ match err with Some _ => [] | None => [e] end.
Proof. destruct err; simpl; [ by rewrite app_nil_r | reflexivity ]. Qed.

(** X1.  [GetStatefulSet] never panics and never answers an object together
    with an error: the error is the one the store answered, and the object
    is the store's when there is no error and nil when there is one, even
    if the store answered an object beside the error.  It makes the one GET
    call, writes no log line and leaves the heap alone. *)
Theorem GetStatefulSet_object_or_error namespace name σ :
  let out := run (GetStatefulSet s namespace name) σ in
  let answered :=
    fst (kubernetes.StatefulSets_Get (kubeClient s) namespace name
           metav1.mkGetOptions (cluster σ)) in
  (exists obj,
     fst out = Ok (obj, snd answered)
     /\ (snd answered = None -> obj = fst answered)
     /\ (snd answered <> None -> obj = None))
  /\ issued σ (snd out) = [getCall namespace name (snd answered)]
  /\ heap (snd out) = heap σ
  /\ logLines σ (snd out) = [].
Proof.
  intros out answered. subst out answered. unfold run.
  rewrite GetStatefulSet_run.
  destruct (kubernetes.StatefulSets_Get _ _ _ _ _) as [[statefulSet err] w].
  simpl. split_and!.
  - eexists. split; [ reflexivity | ].
    destruct err; split; intros H; congruence.
  - by apply issued_calls.
  - reflexivity.
  - by apply logLines_same.
Qed.

(** The whole of a run of [CreateOrUpdateStatefulSet] from a valid pointer:
    result and final state on each of its paths. *)
Lemma CreateOrUpdateStatefulSet_paths namespace p desired σ :
  heap σ !! p = Some desired ->
  let name := appsv1.Name desired in
  let '((stored, err), w) :=
    kubernetes.StatefulSets_Get (kubeClient s) namespace name
      metav1.mkGetOptions (cluster σ) in
  let σ1 := noted σ w (getCall namespace name err) (report namespace name "GET" err) in
  CreateOrUpdateStatefulSet s namespace p σ =
  match err with
  | Some e =>
      if IsNotFound e then
        let '((_, cerr), w') :=
          kubernetes.StatefulSets_Create (kubeClient s) namespace (Some desired)
            metav1.mkCreateOptions w in
        let σ2 := noted σ1 w' (createCall namespace desired cerr)
                    (report namespace name "CREATE" cerr) in
        (Ok cerr,
         match cerr with
         | Some _ => σ2
         | None => logged σ2 (entry (logger s) namespace name "statefulSet created")
         end)
      else (Ok err, σ1)
  | None =>
      match stored with
      | Some st =>
          let obj := appsv1.set_ResourceVersion desired (appsv1.ResourceVersion st) in
          let '((_, uerr), w') :=
            kubernetes.StatefulSets_Update (kubeClient s) namespace (Some obj)
              metav1.mkUpdateOptions w in
          let σ2 := noted (written σ1 p obj) w' (updateCall namespace obj uerr)
                      (report namespace name "UPDATE" uerr) in
          (Ok uerr,
           match uerr with
           | Some _ => σ2
           | None => logged σ2 (entry (logger s) namespace name "statefulSet updated")
           end)
      | None => (Panic nil_dereference, σ1)
      end
  end.
Proof.
  intros Hp name. subst name.
  rewrite (CreateOrUpdateStatefulSet_run namespace p desired σ Hp).
  destruct (kubernetes.StatefulSets_Get _ _ _ _ _) as [[stored err] w].
  cbv beta iota zeta.
  destruct err as [e|].
  - destruct (IsNotFound e); [ | reflexivity ].
    erewrite CreateStatefulSet_run by exact Hp. reflexivity.
  - destruct stored as [st|]; [ | reflexivity ].
    erewrite UpdateStatefulSet_run by apply lookup_insert_eq. reflexivity.
Qed.

(** X2.  [CreateOrUpdateStatefulSet] writes a log line exactly when it
    returns nil: one line, saying "statefulSet created" when the run issued
    a create and "statefulSet updated" otherwise, under the logger's context
    with the namespace and the object's name.  A run that returns an error,
    or panics, logs nothing. *)
Theorem CreateOrUpdate_logs_on_success namespace p desired σ :
  heap σ !! p = Some desired ->
  let out := run (CreateOrUpdateStatefulSet s namespace p) σ in
  let line := entry (logger s) namespace (appsv1.Name desired) in
  (fst out = Ok None ->
     (count isCreate (issued σ (snd out)) = 1
      /\ logLines σ (snd out) = [line "statefulSet created"])
     \/ (count isUpdate (issued σ (snd out)) = 1
         /\ logLines σ (snd out) = [line "statefulSet updated"]))
  /\ (fst out <> Ok None -> logLines σ (snd out) = []).
Proof.
  intros Hp out line. subst out line. unfold run.
  pose proof (CreateOrUpdateStatefulSet_paths namespace p desired σ Hp) as Hrun.
  cbv zeta in Hrun.
  destruct (kubernetes.StatefulSets_Get _ _ _ _ _) as [[stored err] w].
  destruct err as [e|].
  - destruct (IsNotFound e).
    + destruct (kubernetes.StatefulSets_Create _ _ _ _ _) as [[created cerr] w'].
      rewrite Hrun. destruct cerr as [ce|]; simpl.
      * split; [ discriminate | intros _; by apply logLines_same ].
      * split; [ intros _; left | congruence ].
        split; [ | by apply logLines_logs ].
        erewrite issued_calls; [ | simpl; by rewrite <- app_assoc ]. reflexivity.
    + rewrite Hrun. simpl.
      split; [ discriminate | intros _; by apply logLines_same ].
  - destruct stored as [st|].
    + destruct (kubernetes.StatefulSets_Update _ _ _ _ _) as [[updated uerr] w'].
      rewrite Hrun. destruct uerr as [ue|]; simpl.
      * split; [ discriminate | intros _; by apply logLines_same ].
      * split; [ intros _; right | congruence ].
        split; [ | by apply logLines_logs ].
        erewrite issued_calls; [ | simpl; by rewrite <- app_assoc ]. reflexivity.
    + rewrite Hrun. simpl.
      split; [ discriminate | intros _; by apply logLines_same ].
Qed.

(** The calls of a run of [CreateOrUpdateStatefulSet]: none, the fetch
    alone, the fetch and a create, or the fetch and an update. *)
Lemma CreateOrUpdate_trace namespace p σ :
  let tr := issued σ (snd (run (CreateOrUpdateStatefulSet s namespace p) σ)) in
  (heap σ !! p = None /\ tr = [])
  \/ exists desired, heap σ !! p = Some desired /\
       ((exists err, tr = [getCall namespace (appsv1.Name desired) err])
        \/ (exists e cerr,
              tr = [getCall namespace (appsv1.Name desired) (Some e);
                    createCall namespace desired cerr])
        \/ (exists st uerr,
              tr = [getCall namespace (appsv1.Name desired) None;
                    updateCall namespace
                      (appsv1.set_ResourceVersion desired (appsv1.ResourceVersion st))
                      uerr])).
Proof.
  intros tr. subst tr. unfold run.
  destruct (heap σ !! p) as [desired|] eqn:Hp.
  2:{ left. rewrite (CreateOrUpdateStatefulSet_nil namespace p σ Hp). simpl.
      by rewrite issued_refl. }
  right. exists desired. split; [ reflexivity | ].
  pose proof (CreateOrUpdateStatefulSet_paths namespace p desired σ Hp) as Hrun.
  cbv zeta in Hrun.
  destruct (kubernetes.StatefulSets_Get _ _ _ _ _) as [[stored err] w].
  destruct err as [e|].
  - destruct (IsNotFound e).
    + destruct (kubernetes.StatefulSets_Create _ _ _ _ _) as [[created cerr] w'].
      rewrite Hrun. right; left. exists e, cerr. simpl snd.
      apply issued_calls. rewrite calls_after_write. simpl. by rewrite <- app_assoc.
    + rewrite Hrun. left. exists (Some e). by apply issued_calls.
  - destruct stored as [st|].
    + destruct (kubernetes.StatefulSets_Update _ _ _ _ _) as [[updated uerr] w'].
      rewrite Hrun. right; right. exists st, uerr. simpl snd.
      apply issued_calls. rewrite calls_after_write. simpl. by rewrite <- app_assoc.
    + rewrite Hrun. left. exists None. by apply issued_calls.
Qed.

(** X3.  Every method but [GetStatefulSetPods] hands the recorder one
    report for each call it makes on the store, in the order of the calls:
    namespace, kind StatefulSet, the object's name (the sentinel for the
    list), the verb and the error the call answered. *)
Theorem calls_are_reported namespace name p σ :
  let covered (σ' : State World) :=
    reported σ σ' = map (reportFor NOT_APPLICABLE) (issued σ σ') in
  covered (snd (run (GetStatefulSet s namespace name) σ))
  /\ covered (snd (run (CreateOrUpdateStatefulSet s namespace p) σ))
  /\ covered (snd (run (DeleteStatefulSet s namespace name) σ))
  /\ covered (snd (run (ListStatefulSets NOT_APPLICABLE s namespace) σ))
  /\ (forall obj, heap σ !! p = Some obj ->
        covered (snd (run (CreateStatefulSet s namespace p) σ))
        /\ covered (snd (run (UpdateStatefulSet s namespace p) σ))).
Proof.
  intros covered. subst covered. cbv beta. split_and!.
  - apply GetStatefulSet_reported.
  - unfold run. destruct (heap σ !! p) as [desired|] eqn:Hp.
    2:{ rewrite (CreateOrUpdateStatefulSet_nil namespace p σ Hp). simpl.
        rewrite issued_refl. by apply reported_reports; rewrite app_nil_r. }
    pose proof (CreateOrUpdateStatefulSet_paths namespace p desired σ Hp) as Hrun.
    cbv zeta in Hrun.
    destruct (kubernetes.StatefulSets_Get _ _ _ _ _) as [[stored err] w].
    destruct err as [e|].
    + destruct (IsNotFound e).
      * destruct (kubernetes.StatefulSets_Create _ _ _ _ _) as [[created cerr] w'].
        rewrite Hrun. simpl snd.
        erewrite issued_calls;
          [ | rewrite calls_after_write; simpl; by rewrite <- app_assoc ].
        apply reported_reports. rewrite reports_after_write. simpl.
        by rewrite <- app_assoc.
      * rewrite Hrun. simpl snd.
        erewrite issued_calls by reflexivity. by apply reported_reports.
    + destruct stored as [st|].
      * destruct (kubernetes.StatefulSets_Update _ _ _ _ _) as [[updated uerr] w'].
        rewrite Hrun. simpl snd.
        erewrite issued_calls;
          [ | rewrite calls_after_write; simpl; by rewrite <- app_assoc ].
        apply reported_reports. rewrite reports_after_write. simpl.
        by rewrite <- app_assoc.
      * rewrite Hrun. simpl snd.
        erewrite issued_calls by reflexivity. by apply reported_reports.
  - apply DeleteStatefulSet_reported.
  - apply ListStatefulSets_reported.
  - intros obj Hp. split.
    + by apply (CreateStatefulSet_reported namespace p obj).
    + by apply (UpdateStatefulSet_reported namespace p obj).
Qed.

(** X4.  [ListStatefulSets] makes one LIST call with empty options, so
    nothing is filtered on the service's side, and hands the store's answer
    on as it is, list and error both (the list is not dropped on an error,
    unlike the object of [GetStatefulSet]); heap and log are untouched. *)
Theorem ListStatefulSets_passes_answer namespace σ :
  let out := run (ListStatefulSets NOT_APPLICABLE s namespace) σ in
  let answered :=
    kubernetes.StatefulSets_List (kubeClient s) namespace
      {| metav1.LabelSelector := "" |} (cluster σ) in
  fst out = Ok (fst answered)
  /\ issued σ (snd out) =
       [{| action := ListAction statefulsets namespace {| metav1.LabelSelector := "" |};
           answer := snd (fst answered) |}]
  /\ cluster (snd out) = snd answered
  /\ heap (snd out) = heap σ
  /\ logLines σ (snd out) = [].
Proof.
  intros out answered. subst out answered.
  unfold run, ListStatefulSets, mbind, M_bind, invoke, recordMetrics, mret, M_ret.
  destruct (kubernetes.StatefulSets_List _ _ _ _) as [[stsList err] w]. simpl.
  split_and!; [ reflexivity | by apply issued_calls | reflexivity | reflexivity
              | by apply logLines_same ].
Qed.

(** X5.  When the fetch of the StatefulSet fails, with whatever error,
    [GetStatefulSetPods] returns no pods and that error, and lists
    nothing. *)
Theorem GetStatefulSetPods_fetch_error namespace name stored e w σ :
  kubernetes.StatefulSets_Get (kubeClient s) namespace name
    metav1.mkGetOptions (cluster σ) = ((stored, Some e), w) ->
  let out := run (GetStatefulSetPods rangeOrder s namespace name) σ in
  fst out = Ok (None, Some e)
  /\ issued σ (snd out) = [getCall namespace name (Some e)]
  /\ count isList (issued σ (snd out)) = 0
  /\ cluster (snd out) = w.
Proof.
  intros Hget out. subst out. unfold run.
  rewrite GetStatefulSetPods_run, Hget. cbv beta iota zeta.
  erewrite issued_calls by reflexivity.
  split_and!; reflexivity.
Qed.

Lemma append_empty (a b : string) : a +:+ b = "" -> a = "" /\ b = "".
Proof.
  destruct a as [|c a]; [ intros H; split; [ reflexivity | exact H ] | ].
  intros H. inversion H.
Qed.

(** A join is empty only if there is nothing to join or all of it is
    empty. *)
Lemma Join_empty (l : list string) (sep : string) :
  Join l sep = "" -> forall x, x ∈ l -> x = "".
Proof.
  induction l as [|x l IH]; intros HJ y Hy; [ by apply elem_of_nil in Hy | ].
  destruct l as [|x' l].
  - apply list_elem_of_singleton in Hy as ->. exact HJ.
  - change (x +:+ sep +:+ Join (x' :: l) sep = "") in HJ.
    apply append_empty in HJ as [-> HJ].
    apply append_empty in HJ as [_ HJ].
    apply elem_of_cons in Hy as [-> | Hy]; [ reflexivity | by apply IH ].
Qed.

(** X7.  The selector that [GetStatefulSetPods] lists under has one
    component for each match label, [key=value] for every entry of the
    map; and it is the empty selector only when there are no match labels:
    a StatefulSet with match labels never selects by the empty selector. *)
Theorem GetStatefulSetPods_selector_shape namespace name sts sel w σ :
  kubernetes.StatefulSets_Get (kubeClient s) namespace name
    metav1.mkGetOptions (cluster σ) = ((Some sts, None), w) ->
  appsv1.Selector (appsv1.Spec sts) = Some sel ->
  let out := run (GetStatefulSetPods rangeOrder s namespace name) σ in
  exists labels err,
    issued σ (snd out) =
      [getCall namespace name None; listPodsCall namespace (Join labels ",") err]
    /\ length labels = size (metav1.MatchLabels sel)
    /\ (forall k v, metav1.MatchLabels sel !! k = Some v ->
                    (k +:+ "=" +:+ v) ∈ labels)
    /\ (Join labels "," = "" <-> metav1.MatchLabels sel = ∅).
Proof.
  intros Hget Hsel out. subst out. unfold run.
  rewrite GetStatefulSetPods_run, Hget. cbv beta iota zeta. rewrite Hsel.
  destruct (kubernetes.Pods_List _ _ _ _) as [podList w'].
  exists (selectorLabels rangeOrder (metav1.MatchLabels sel)), (snd podList).
  split_and!.
  - apply issued_calls. simpl. by rewrite <- app_assoc.
  - rewrite selectorLabels_map, length_map, (rangeOrder_perm _).
    apply length_map_to_list.
  - intros k v Hkv. rewrite selectorLabels_map.
    apply (list_elem_of_fmap_2 (fun kv => Sprintf_eq (fst kv) (snd kv)) _ (k, v)).
    rewrite (rangeOrder_perm _). by apply elem_of_map_to_list.
  - split.
    + intros HJ. apply map_to_list_empty_iff.
      destruct (map_to_list (metav1.MatchLabels sel)) as [|[k v] l] eqn:Hl;
        [ reflexivity | exfalso ].
      assert (Sprintf_eq k v = "") as Hkv.
      { apply (Join_empty _ _ HJ). rewrite selectorLabels_map.
        apply (list_elem_of_fmap_2 (fun kv => Sprintf_eq (fst kv) (snd kv)) _ (k, v)).
        rewrite (rangeOrder_perm _), Hl. apply list_elem_of_here. }
      unfold Sprintf_eq in Hkv. apply append_empty in Hkv as [_ Hkv].
      discriminate.
    + intros ->. by rewrite selectorLabels_empty.
Qed.

(** X9.  [UpdateStatefulSet] and [CreateStatefulSet], called on their own,
    send the caller's object as it is and fetch nothing first: the update
    goes out under the caller's own version token, the create without a
    look whether the object exists.  What the store answers is returned,
    the caller's object is not touched, and a line is logged only when the
    store answered no error. *)
Theorem direct_writes_as_is namespace p obj σ :
  heap σ !! p = Some obj ->
  (let out := run (UpdateStatefulSet s namespace p) σ in
   let err :=
     snd (fst (kubernetes.StatefulSets_Update (kubeClient s) namespace (Some obj)
                 metav1.mkUpdateOptions (cluster σ))) in
   fst out = Ok err
   /\ issued σ (snd out) = [updateCall namespace obj err]
   /\ heap (snd out) = heap σ
   /\ logLines σ (snd out) =
        match err with
        | Some _ => []
        | None => [entry (logger s) namespace (appsv1.Name obj) "statefulSet updated"]
        end)
  /\ (let out := run (CreateStatefulSet s namespace p) σ in
      let err :=
        snd (fst (kubernetes.StatefulSets_Create (kubeClient s) namespace (Some obj)
                    metav1.mkCreateOptions (cluster σ))) in
      fst out = Ok err
      /\ issued σ (snd out) = [createCall namespace obj err]
      /\ heap (snd out) = heap σ
      /\ logLines σ (snd out) =
           match err with
           | Some _ => []
           | None => [entry (logger s) namespace (appsv1.Name obj) "statefulSet created"]
           end).
Proof.
  intros Hp. split; cbv zeta; unfold run.
  - rewrite (UpdateStatefulSet_run namespace p obj σ Hp).
    destruct (kubernetes.StatefulSets_Update _ _ _ _ _) as [[updated err] w].
    cbv beta iota zeta. simpl fst. simpl snd. split_and!.
    + reflexivity.
    + apply issued_calls. by rewrite calls_after_write.
    + by rewrite heap_after_write.
    + apply logLines_logs. rewrite logs_after_write. by destruct err.
  - rewrite (CreateStatefulSet_run namespace p obj σ Hp).
    destruct (kubernetes.StatefulSets_Create _ _ _ _ _) as [[created err] w].
    cbv beta iota zeta. simpl fst. simpl snd. split_and!.
    + reflexivity.
    + apply issued_calls. by rewrite calls_after_write.
    + by rewrite heap_after_write.
    + apply logLines_logs. rewrite logs_after_write. by destruct err.
Qed.

(** X10.  Two calls of [CreateOrUpdateStatefulSet] in a row for the same
    object: when the first finds nothing and its create succeeds, and the
    store then answers the fetch with a stored object, the second call
    updates under that object's version token.  Four calls are made in all,
    GET CREATE GET UPDATE, and the caller's object ends under the stored
    token. *)
Theorem CreateOrUpdate_twice namespace p desired absent e w1 created w2 stored w3 σ :
  heap σ !! p = Some desired ->
  kubernetes.StatefulSets_Get (kubeClient s) namespace (appsv1.Name desired)
    metav1.mkGetOptions (cluster σ) = ((absent, Some e), w1) ->
  IsNotFound e = true ->
  kubernetes.StatefulSets_Create (kubeClient s) namespace (Some desired)
    metav1.mkCreateOptions w1 = ((created, None), w2) ->
  kubernetes.StatefulSets_Get (kubeClient s) namespace (appsv1.Name desired)
    metav1.mkGetOptions w2 = ((Some stored, None), w3) ->
  let first := run (CreateOrUpdateStatefulSet s namespace p) σ in
  let second := run (CreateOrUpdateStatefulSet s namespace p) (snd first) in
  let obj := appsv1.set_ResourceVersion desired (appsv1.ResourceVersion stored) in
  let updateErr :=
    snd (fst (kubernetes.StatefulSets_Update (kubeClient s) namespace (Some obj)
                metav1.mkUpdateOptions w3)) in
  fst first = Ok None
  /\ fst second = Ok updateErr
  /\ issued σ (snd second) =
       [getCall namespace (appsv1.Name desired) (Some e);
        createCall namespace desired None;
        getCall namespace (appsv1.Name desired) None;
        updateCall namespace obj updateErr]
  /\ heap (snd second) !! p = Some obj.
Proof.
  intros Hp Hget Hnf Hcreate Hget2 first second obj updateErr.
  subst first second obj updateErr. unfold run.
  pose proof (CreateOrUpdateStatefulSet_paths namespace p desired σ Hp) as Hrun.
  cbv zeta in Hrun. rewrite Hget, Hnf, Hcreate in Hrun. rewrite Hrun.
  split; [ reflexivity | ]. simpl snd.
  match goal with
  | |- context [CreateOrUpdateStatefulSet s namespace p ?σ'] =>
      pose proof (CreateOrUpdateStatefulSet_paths namespace p desired σ' Hp) as Hrun2
  end.
  cbv zeta in Hrun2. simpl cluster in Hrun2. rewrite Hget2 in Hrun2.
  destruct (kubernetes.StatefulSets_Update _ _ _ _ _) as [[updated uerr] w4].
  rewrite Hrun2. simpl fst. simpl snd. split_and!.
  - reflexivity.
  - apply issued_calls. rewrite calls_after_write. simpl.
    by rewrite <- !app_assoc.
  - rewrite heap_after_write. simpl. apply lookup_insert_eq.
Qed.

(** X11.  A run of [CreateOrUpdateStatefulSet] makes at most two calls on
    the store.  The first is always the GET of the desired object's name in
    the namespace of the call, and no later call is a GET; nothing is ever
    deleted or listed. *)
Theorem CreateOrUpdate_round_trips namespace p σ :
  let tr := issued σ (snd (run (CreateOrUpdateStatefulSet s namespace p) σ)) in
  length tr <= 2
  /\ (forall c, tr !! 0 = Some c ->
        exists desired,
          heap σ !! p = Some desired
          /\ action c = GetAction statefulsets namespace (appsv1.Name desired))
  /\ (forall i c, tr !! i = Some c -> isGet c = true -> i = 0)
  /\ count isDelete tr = 0
  /\ count isList tr = 0.
Proof.
  intros tr. subst tr.
  destruct (CreateOrUpdate_trace namespace p σ)
    as [[_ ->] | (desired & Hp & [[err ->] | [(e & cerr & ->) | (st & uerr & ->)]])].
  - split_and!; [ simpl; lia | | | reflexivity | reflexivity ];
      intros; by rewrite lookup_nil in *.
  - split_and!; [ simpl; lia | | | reflexivity | reflexivity ].
    + intros c [= <-]. by exists desired.
    + intros [|i] c Hi Hg; [ reflexivity | simpl in Hi; discriminate ].
  - split_and!; [ simpl; lia | | | reflexivity | reflexivity ].
    + intros c [= <-]. by exists desired.
    + intros [|[|i]] c Hi Hg; [ reflexivity | | simpl in Hi; discriminate ].
      simpl in Hi. inversion Hi; subst c. discriminate.
  - split_and!; [ simpl; lia | | | reflexivity | reflexivity ].
    + intros c [= <-]. by exists desired.
    + intros [|[|i]] c Hi Hg; [ reflexivity | | simpl in Hi; discriminate ].
      simpl in Hi. inversion Hi; subst c. discriminate.
Qed.

(** X13.  Every call that [CreateOrUpdateStatefulSet] makes goes to the
    StatefulSets of the namespace it was called with, whatever the
    namespace field of the desired object says; and every call of
    [GetStatefulSetPods] goes to that namespace too. *)
Theorem calls_stay_in_namespace namespace name p σ :
  (forall c,
     c ∈ issued σ (snd (run (CreateOrUpdateStatefulSet s namespace p) σ)) ->
     namespaceOf (action c) = namespace /\ resourceOf (action c) = statefulsets)
  /\ (forall c,
        c ∈ issued σ (snd (run (GetStatefulSetPods rangeOrder s namespace name) σ)) ->
        namespaceOf (action c) = namespace).
Proof.
  split.
  - intros c.
    destruct (CreateOrUpdate_trace namespace p σ)
      as [[_ ->] | (desired & Hp & [[err ->] | [(e & cerr & ->) | (st & uerr & ->)]])];
      intros Hc.
    + by apply elem_of_nil in Hc.
    + by apply list_elem_of_singleton in Hc as ->.
    + apply elem_of_cons in Hc as [-> | ->%list_elem_of_singleton]; by split.
    + apply elem_of_cons in Hc as [-> | ->%list_elem_of_singleton]; by split.
  - intros c. unfold run. rewrite GetStatefulSetPods_run.
    destruct (kubernetes.StatefulSets_Get _ _ _ _ _) as [[statefulSet err] w].
    cbv beta iota zeta.
    assert (forall σ', calls σ' = calls σ ++ [getCall namespace name err] ->
                       c ∈ issued σ σ' -> namespaceOf (action c) = namespace) as Hone.
    { intros σ' E. rewrite (issued_calls _ _ _ E).
      by intros ->%list_elem_of_singleton. }
    destruct err as [e|]; [ by apply Hone | ].
    destruct statefulSet as [o|]; [ | by apply Hone ].
    destruct (appsv1.Selector (appsv1.Spec o)) as [sel|]; [ | by apply Hone ].
    destruct (kubernetes.Pods_List _ _ _ _) as [podList w']. simpl snd.
    erewrite issued_calls; [ | simpl; by rewrite <- app_assoc ].
    intros Hc.
    by apply elem_of_cons in Hc as [-> | ->%list_elem_of_singleton].
Qed.

(** X14.  The three reads, [GetStatefulSet], [GetStatefulSetPods] and
    [ListStatefulSets], never write: none of their calls is a create, an
    update or a delete, the caller's heap is as it was, and nothing is
    logged, whatever the store answers and also when the run panics. *)
Theorem reads_never_write namespace name σ :
  let quiet (σ' : State World) :=
    count isWrite (issued σ σ') = 0 /\ heap σ' = heap σ /\ logLines σ σ' = [] in
  quiet (snd (run (GetStatefulSet s namespace name) σ))
  /\ quiet (snd (run (GetStatefulSetPods rangeOrder s namespace name) σ))
  /\ quiet (snd (run (ListStatefulSets NOT_APPLICABLE s namespace) σ)).
Proof.
  intros quiet. subst quiet. cbv beta. unfold run. split; [ | split ].
  - rewrite GetStatefulSet_run.
    destruct (kubernetes.StatefulSets_Get _ _ _ _ _) as [[statefulSet err] w].
    simpl snd. erewrite issued_calls by reflexivity.
    split_and!; [ reflexivity | reflexivity | by apply logLines_same ].
  - rewrite GetStatefulSetPods_run.
    destruct (kubernetes.StatefulSets_Get _ _ _ _ _) as [[statefulSet err] w].
    cbv beta iota zeta.
    assert (forall σ', σ' = noted σ w (getCall namespace name err)
                              (report namespace name "GET" err) ->
              count isWrite (issued σ σ') = 0 /\ heap σ' = heap σ
              /\ logLines σ σ' = []) as Hone.
    { intros σ' ->. erewrite issued_calls by reflexivity.
      split_and!; [ reflexivity | reflexivity | by apply logLines_same ]. }
    destruct err as [e|]; [ by apply Hone | ].
    destruct statefulSet as [o|]; [ | by apply Hone ].
    destruct (appsv1.Selector (appsv1.Spec o)) as [sel|]; [ | by apply Hone ].
    destruct (kubernetes.Pods_List _ _ _ _) as [podList w']. simpl snd.
    erewrite issued_calls; [ | simpl; by rewrite <- app_assoc ].
    split_and!; [ reflexivity | reflexivity | by apply logLines_same ].
  - unfold ListStatefulSets, mbind, M_bind, invoke, recordMetrics, mret, M_ret.
    destruct (kubernetes.StatefulSets_List _ _ _ _) as [[stsList err] w]. simpl.
    erewrite issued_calls by reflexivity.
    split_and!; [ reflexivity | reflexivity | by apply logLines_same ].
Qed.

(** X15.  When the fetch answered a stored object and the update then
    fails, with a conflict, a not-found or anything else, that error is
    returned: the run does not fetch again, does not fall back on a create
    and logs nothing; the caller's object keeps the stored token it was
    given. *)
Theorem CreateOrUpdate_update_failure_surfaces
    namespace p desired stored w updated e w' σ :
  heap σ !! p = Some desired ->
  kubernetes.StatefulSets_Get (kubeClient s) namespace (appsv1.Name desired)
    metav1.mkGetOptions (cluster σ) = ((Some stored, None), w) ->
  let obj := appsv1.set_ResourceVersion desired (appsv1.ResourceVersion stored) in
  kubernetes.StatefulSets_Update (kubeClient s) namespace (Some obj)
    metav1.mkUpdateOptions w = ((updated, Some e), w') ->
  let out := run (CreateOrUpdateStatefulSet s namespace p) σ in
  fst out = Ok (Some e)
  /\ issued σ (snd out) =
       [getCall namespace (appsv1.Name desired) None;
        updateCall namespace obj (Some e)]
  /\ count isCreate (issued σ (snd out)) = 0
  /\ logLines σ (snd out) = []
  /\ heap (snd out) !! p = Some obj
  /\ (exists final,
        heap (snd out) !! p = Some final
        /\ appsv1.ResourceVersion final = appsv1.ResourceVersion stored).
Proof.
  intros Hp Hget obj Hupdate out. subst out obj. unfold run.
  pose proof (CreateOrUpdateStatefulSet_paths namespace p desired σ Hp) as Hrun.
  cbv zeta in Hrun. rewrite Hget, Hupdate in Hrun. rewrite Hrun.
  simpl fst. simpl snd.
  erewrite issued_calls; [ | simpl; by rewrite <- app_assoc ].
  split_and!; [ reflexivity | reflexivity | reflexivity | by apply logLines_same
              | apply lookup_insert_eq | ].
  eexists. split; [ apply lookup_insert_eq | reflexivity ].
Qed.

End Properties.

(** * The protocol at work on the in-memory cluster *)

(** The in-memory cluster answers the empty selector with every pod of the
    namespace. *)
Lemma fake_Matches_everything (l : list corev1.Pod) :
  List.filter (fun p => fake.Matches "" (corev1.Labels p)) l = l.
Proof.
  induction l as [|x l IH]; [ reflexivity | ].
  change (x :: List.filter (fun p => fake.Matches "" (corev1.Labels p)) l = x :: l).
  by rewrite IH.
Qed.

Lemma fake_ListPods_everything (namespace : string) (c : fake.Clientset) :
  fake.react "list" pods c = None ->
  fake.ListPods namespace {| metav1.LabelSelector := "" |} c =
  ((Some {| corev1.Items := fake.podsIn namespace c |}, None), c).
Proof.
  intros Hr. unfold fake.ListPods. rewrite Hr.
  cbv beta iota zeta. unfold metav1.LabelSelector.
  by rewrite fake_Matches_everything.
Qed.

(** C5.  A run of [GetStatefulSetPods] on a cluster that holds the
    StatefulSet makes two calls on the store, a GET and a LIST, and one
    report, of the GET: the list of the pods is not reported. *)
Theorem GetStatefulSetPods_list_unreported :
  let σ := initial liveCluster ∅ in
  let out := run (GetStatefulSetPods map_to_list service "ns-a" "redis-1") σ in
  map (fun c => verb (action c)) (issued σ (snd out)) = ["GET"; "LIST"]
  /\ map rOperation (reported σ (snd out)) = ["GET"]
  /\ forall na, reported σ (snd out) <> map (reportFor na) (issued σ (snd out)).
Proof.
  split_and!.
  - vm_compute. reflexivity.
  - vm_compute. reflexivity.
  - intros na H. apply (f_equal length) in H. rewrite length_map in H.
    vm_compute in H. discriminate.
Qed.

(** C8, as stated, fails: create answers with an error that names neither
    kind, namespace, object nor verb, and that error is what the caller
    gets.  And an update called on its own with a nil object makes its
    call, which the store answers with an error, and then panics: that
    error is not returned at all. *)
Lemma CreateOrUpdate_error_without_context :
  (let σ := initial (reacting emptyCluster "create" wanted) callerHeap in
   let out := run (CreateOrUpdateStatefulSet service "ns-a" desiredPtr) σ in
   fst out = Ok (Some wanted)
   /\ Error wanted = "wanted error"
   /\ Contains (Error wanted) "StatefulSet" = false
   /\ Contains (Error wanted) "ns-a" = false
   /\ Contains (Error wanted) "redis-1" = false
   /\ Contains (Error wanted) "CREATE" = false
   /\ carriesContext wanted "StatefulSet" "ns-a" "redis-1" "CREATE" = false)
  /\ (let σ := initial liveCluster ∅ in
      let out := run (UpdateStatefulSet service "ns-a" desiredPtr) σ in
      issued σ (snd out) =
        [{| action := UpdateAction statefulsets "ns-a" None;
            answer := Some fake.NewInvalid |}]
      /\ fst out = Panic nil_dereference).
Proof. split; split_and!; vm_compute; reflexivity. Qed.

(** The scenario of the design, both calls in a row: the first creates the
    object, which the cluster stores under token 10; the second fetches it
    and updates under that token. *)
Example created_then_updated :
  let first := run (CreateOrUpdateStatefulSet service "ns-a" desiredPtr)
                 (initial emptyCluster callerHeap) in
  let second := run (CreateOrUpdateStatefulSet service "ns-a" desiredPtr)
                  (snd first) in
  fst first = Ok None
  /\ fst second = Ok None
  /\ map (fun c => verb (action c)) (calls (snd second))
     = ["GET"; "CREATE"; "GET"; "UPDATE"]
  /\ calls (snd second) !! 3
     = Some (updateCall "ns-a" (appsv1.set_ResourceVersion redis1 "10") None)
  /\ map message (logs (snd second))
     = ["statefulSet created"; "statefulSet updated"].
Proof. split_and!; vm_compute; reflexivity. Qed.

(** The scenario of the spec, first call: nothing stored, the object is
    created. *)
Lemma CreateOrUpdate_absent_creates_witness :
  let σ := initial emptyCluster callerHeap in
  let out := run (CreateOrUpdateStatefulSet service "ns-a" desiredPtr) σ in
  issued σ (snd out) =
    [getCall "ns-a" "redis-1" (Some (fake.NewNotFound "redis-1"));
     createCall "ns-a" redis1 None]
  /\ count isCreate (issued σ (snd out)) = 1
  /\ count isUpdate (issued σ (snd out)) = 0
  /\ fst out = Ok None.
Proof.
  apply (CreateOrUpdate_absent_creates service "ns-a" desiredPtr redis1 None
           (fake.NewNotFound "redis-1") emptyCluster
           (initial emptyCluster callerHeap)).
  - vm_compute. reflexivity.
  - vm_compute. reflexivity.
  - reflexivity.
Defined.

(** The fetch is forbidden: nothing is written. *)
Lemma CreateOrUpdate_fetch_error_stops_witness :
  let c := reacting emptyCluster "get" forbidden in
  let σ := initial c callerHeap in
  let out := run (CreateOrUpdateStatefulSet service "ns-a" desiredPtr) σ in
  fst out = Ok (Some forbidden)
  /\ issued σ (snd out) = [getCall "ns-a" "redis-1" (Some forbidden)]
  /\ count isCreate (issued σ (snd out)) = 0
  /\ count isUpdate (issued σ (snd out)) = 0
  /\ cluster (snd out) = c
  /\ heap (snd out) = callerHeap.
Proof.
  apply (CreateOrUpdate_fetch_error_stops service "ns-a" desiredPtr redis1 None
           forbidden (reacting emptyCluster "get" forbidden)
           (initial (reacting emptyCluster "get" forbidden) callerHeap)).
  - vm_compute. reflexivity.
  - vm_compute. reflexivity.
  - reflexivity.
Defined.

(** The scenario of the spec, second call: the stored object has token 10,
    the caller's object a token of its own. *)
Lemma CreateOrUpdate_update_carries_stored_token_witness :
  let σ := initial liveCluster callerHeap in
  let out := run (CreateOrUpdateStatefulSet service "ns-a" desiredPtr) σ in
  appsv1.ResourceVersion redis1 = "guessed"
  /\ appsv1.ResourceVersion stored1 = "10"
  /\ (exists obj err,
        issued σ (snd out) =
          [getCall "ns-a" "redis-1" None; updateCall "ns-a" obj err]
        /\ appsv1.ResourceVersion obj = "10")
  /\ (forall c r ns o,
        c ∈ issued σ (snd out) -> action c = UpdateAction r ns o ->
        appsv1.ResourceVersion <$> o = Some "10").
Proof.
  split; [ reflexivity | ]. split; [ reflexivity | ].
  apply (CreateOrUpdate_update_carries_stored_token service "ns-a" desiredPtr
           redis1 stored1 liveCluster (initial liveCluster callerHeap)).
  - vm_compute. reflexivity.
  - vm_compute. reflexivity.
Defined.

(** A StatefulSet that is fetched and has no selector: no list is issued
    and the run does not return.  C7 as stated, for every StatefulSet whose
    fetch succeeds, fails here. *)
Lemma GetStatefulSetPods_without_selector :
  let σ := initial oddCluster ∅ in
  let out := run (GetStatefulSetPods map_to_list service "ns-a" "unselective") σ in
  fst (run (GetStatefulSet service "ns-a" "unselective") σ)
    = Ok (Some unselective, None)
  /\ appsv1.Selector (appsv1.Spec unselective) = None
  /\ fst out = Panic nil_dereference
  /\ issued σ (snd out) = [getCall "ns-a" "unselective" None]
  /\ count isList (issued σ (snd out)) = 0.
Proof. split_and!; vm_compute; reflexivity. Qed.

(** The pods of redis-1, the map ranged in the order of its list of
    entries: the selector is component=redis-1,app=redis, and the one pod
    of the namespace that carries both labels is returned. *)
Lemma GetStatefulSetPods_lists_by_selector_witness :
  let σ := initial liveCluster ∅ in
  let out := run (GetStatefulSetPods map_to_list service "ns-a" "redis-1") σ in
  (exists kvs,
     kvs ≡ₚ map_to_list redisLabels
     /\ let selector :=
          String.concat "," (map (fun kv => fst kv +:+ "=" +:+ snd kv) kvs) in
        let listed :=
          fst (fake.ListPods "ns-a" {| metav1.LabelSelector := selector |} liveCluster) in
        issued σ (snd out) =
          [getCall "ns-a" "redis-1" None; listPodsCall "ns-a" selector (snd listed)]
        /\ count isList (issued σ (snd out)) = 1
        /\ fst out = Ok listed)
  /\ issued σ (snd out) =
       [getCall "ns-a" "redis-1" None;
        listPodsCall "ns-a" "component=redis-1,app=redis" None]
  /\ fst out =
       Ok (Some {| corev1.Items := [pod "ns-a" "redis-1-0" redisLabels] |}, None).
Proof.
  split; [ | split; vm_compute; reflexivity ].
  apply (GetStatefulSetPods_lists_by_selector map_to_list
           (fun m => reflexivity (map_to_list m)) service "ns-a" "redis-1"
           stored1 {| metav1.MatchLabels := redisLabels |} liveCluster
           (initial liveCluster ∅)).
  - vm_compute. reflexivity.
  - reflexivity.
Defined.

(** The caller's object after the update: the stored token 10 in place of
    the guessed one, all else as it was. *)
Lemma CreateOrUpdate_mutates_token_only_witness :
  let σ := initial liveCluster callerHeap in
  let out := run (CreateOrUpdateStatefulSet service "ns-a" desiredPtr) σ in
  appsv1.ResourceVersion redis1 = "guessed"
  /\ (forall q, q <> desiredPtr -> heap (snd out) !! q = callerHeap !! q)
  /\ exists final,
       heap (snd out) !! desiredPtr = Some final
       /\ appsv1.Name final = "redis-1"
       /\ appsv1.Namespace final = "ns-a"
       /\ appsv1.Labels final = ∅
       /\ appsv1.Spec final = appsv1.Spec redis1
       /\ appsv1.ResourceVersion final = "10"
       /\ final = appsv1.set_ResourceVersion redis1 "10".
Proof.
  split; [ reflexivity | ].
  apply (CreateOrUpdate_mutates_token_only service "ns-a" desiredPtr redis1
           (initial liveCluster callerHeap)).
  vm_compute. reflexivity.
Defined.

(** A StatefulSet without match labels: both pods of its namespace are
    returned, whatever their labels. *)
Lemma GetStatefulSetPods_no_labels_lists_all_witness :
  let σ := initial liveCluster ∅ in
  let out := run (GetStatefulSetPods map_to_list service "ns-a" "bare") σ in
  issued σ (snd out) = [getCall "ns-a" "bare" None; listPodsCall "ns-a" "" None]
  /\ fst out =
       Ok (Some {| corev1.Items :=
                     [pod "ns-a" "redis-1-0" redisLabels;
                      pod "ns-a" "sentinel-0" {[ "app" := "sentinel" ]}] |},
           None).
Proof.
  apply (GetStatefulSetPods_no_labels_lists_all map_to_list
           (fun m => reflexivity (map_to_list m)) service "ns-a" "bare"
           bare {| metav1.MatchLabels := ∅ |} liveCluster
           [pod "ns-a" "redis-1-0" redisLabels;
            pod "ns-a" "sentinel-0" {[ "app" := "sentinel" ]}]
           (initial liveCluster ∅)).
  - vm_compute. reflexivity.
  - reflexivity.
  - reflexivity.
  - vm_compute. reflexivity.
Defined.

(** * The single methods on the in-memory cluster *)

(** X8.  A service made by [NewStatefulSetService] logs under the context
    it was given, extended by the service's own field and then by the
    namespace and the object's name: every line that
    [CreateOrUpdateStatefulSet] writes carries exactly these fields, in
    this order. *)
Theorem NewStatefulSetService_log_context {World}
    (client : kubernetes.Interface World) (lg : Logger)
    (namespace : string) (p : loc) (σ : State World) :
  let s := NewStatefulSetService client lg in
  forall e,
    e ∈ logLines σ (snd (run (CreateOrUpdateStatefulSet s namespace p) σ)) ->
    exists desired,
      heap σ !! p = Some desired
      /\ fields e =
           lg ++ [("service", "k8s.statefulSet"); ("namespace", namespace);
                  ("statefulSet", appsv1.Name desired)].
Proof.
  intros s e. unfold run.
  destruct (heap σ !! p) as [desired|] eqn:Hp.
  2:{ rewrite (CreateOrUpdateStatefulSet_nil s namespace p σ Hp). simpl.
      rewrite (logLines_same σ σ eq_refl). intros He. by apply elem_of_nil in He. }
  assert (forall msg,
            fields (entry (logger s) namespace (appsv1.Name desired) msg) =
            lg ++ [("service", "k8s.statefulSet"); ("namespace", namespace);
                   ("statefulSet", appsv1.Name desired)]) as Hfields.
  { intros msg. unfold entry, WithField, s, NewStatefulSetService. simpl.
    by rewrite <- !app_assoc. }
  pose proof (CreateOrUpdateStatefulSet_paths s namespace p desired σ Hp) as Hrun.
  cbv zeta in Hrun.
  destruct (kubernetes.StatefulSets_Get _ _ _ _ _) as [[stored err] w].
  assert (forall σ', logs σ' = logs σ ->
            e ∈ logLines σ σ' ->
            exists d, Some desired = Some d
              /\ fields e =
                   lg ++ [("service", "k8s.statefulSet"); ("namespace", namespace);
                          ("statefulSet", appsv1.Name d)]) as Hnone.
  { intros σ' E. rewrite (logLines_same σ σ' E). intros He.
    by apply elem_of_nil in He. }
  assert (forall σ' msg,
            logs σ' = logs σ ++ [entry (logger s) namespace (appsv1.Name desired) msg] ->
            e ∈ logLines σ σ' ->
            exists d, Some desired = Some d
              /\ fields e =
                   lg ++ [("service", "k8s.statefulSet"); ("namespace", namespace);
                          ("statefulSet", appsv1.Name d)]) as Hone.
  { intros σ' msg E. rewrite (logLines_logs σ σ' _ E).
    intros ->%list_elem_of_singleton. exists desired. by rewrite Hfields. }
  destruct err as [er|].
  - destruct (IsNotFound er).
    + destruct (kubernetes.StatefulSets_Create _ _ _ _ _) as [[created cerr] w'].
      rewrite Hrun. destruct cerr;
        [ by apply Hnone | by apply (Hone _ "statefulSet created") ].
    + rewrite Hrun. by apply Hnone.
  - destruct stored as [st|].
    + destruct (kubernetes.StatefulSets_Update _ _ _ _ _) as [[updated uerr] w'].
      rewrite Hrun. destruct uerr;
        [ by apply Hnone | by apply (Hone _ "statefulSet updated") ].
    + rewrite Hrun. by apply Hnone.
Qed.

(** Nothing stored: the create succeeds and is the one line of the log. *)
Lemma CreateOrUpdate_logs_on_success_witness :
  let σ := initial emptyCluster callerHeap in
  let out := run (CreateOrUpdateStatefulSet service "ns-a" desiredPtr) σ in
  let line := entry (logger service) "ns-a" "redis-1" in
  (fst out = Ok None ->
     (count isCreate (issued σ (snd out)) = 1
      /\ logLines σ (snd out) = [line "statefulSet created"])
     \/ (count isUpdate (issued σ (snd out)) = 1
         /\ logLines σ (snd out) = [line "statefulSet updated"]))
  /\ (fst out <> Ok None -> logLines σ (snd out) = [])
  /\ fst out = Ok None.
Proof.
  split; [ | split; [ | vm_compute; reflexivity ] ];
    apply (CreateOrUpdate_logs_on_success service "ns-a" desiredPtr redis1
             (initial emptyCluster callerHeap));
    vm_compute; reflexivity.
Defined.

(** The pods of a StatefulSet that is not there. *)
Lemma GetStatefulSetPods_fetch_error_witness :
  let σ := initial emptyCluster ∅ in
  let out := run (GetStatefulSetPods map_to_list service "ns-a" "redis-1") σ in
  fst out = Ok (None, Some (fake.NewNotFound "redis-1"))
  /\ issued σ (snd out) = [getCall "ns-a" "redis-1" (Some (fake.NewNotFound "redis-1"))]
  /\ count isList (issued σ (snd out)) = 0
  /\ cluster (snd out) = emptyCluster.
Proof.
  apply (GetStatefulSetPods_fetch_error map_to_list service "ns-a" "redis-1" None
           (fake.NewNotFound "redis-1") emptyCluster (initial emptyCluster ∅)).
  vm_compute. reflexivity.
Defined.

(** The pods of a StatefulSet without a selector. *)
Lemma GetStatefulSetPods_nil_selector_panics_witness :
  let σ := initial oddCluster ∅ in
  let out := run (GetStatefulSetPods map_to_list service "ns-a" "unselective") σ in
  fst out = Panic nil_dereference
  /\ issued σ (snd out) = [getCall "ns-a" "unselective" None].
Proof.
  apply (GetStatefulSetPods_nil_selector_panics map_to_list service "ns-a"
           "unselective" unselective oddCluster (initial oddCluster ∅)).
  - vm_compute. reflexivity.
  - reflexivity.
Defined.

(** The selector of redis-1: two components for its two match labels. *)
Lemma GetStatefulSetPods_selector_shape_witness :
  let σ := initial liveCluster ∅ in
  let out := run (GetStatefulSetPods map_to_list service "ns-a" "redis-1") σ in
  exists labels err,
    issued σ (snd out) =
      [getCall "ns-a" "redis-1" None; listPodsCall "ns-a" (Join labels ",") err]
    /\ length labels = size redisLabels
    /\ (forall k v, redisLabels !! k = Some v -> (k +:+ "=" +:+ v) ∈ labels)
    /\ (Join labels "," = "" <-> redisLabels = ∅).
Proof.
  apply (GetStatefulSetPods_selector_shape map_to_list
           (fun m => reflexivity (map_to_list m)) service "ns-a" "redis-1"
           stored1 {| metav1.MatchLabels := redisLabels |} liveCluster
           (initial liveCluster ∅)).
  - vm_compute. reflexivity.
  - reflexivity.
Defined.

(** An update on its own, under the caller's guessed token: the cluster
    answers a conflict, which is returned, and nothing is logged. *)
Lemma direct_writes_as_is_witness :
  let σ := initial liveCluster callerHeap in
  let out := run (UpdateStatefulSet service "ns-a" desiredPtr) σ in
  fst out = Ok (Some conflict)
  /\ issued σ (snd out) = [updateCall "ns-a" redis1 (Some conflict)]
  /\ heap (snd out) = callerHeap
  /\ logLines σ (snd out) = [].
Proof.
  apply (direct_writes_as_is service "ns-a" desiredPtr redis1
           (initial liveCluster callerHeap)).
  vm_compute. reflexivity.
Defined.

(** The scenario of the design on the in-memory cluster, as two calls. *)
Lemma CreateOrUpdate_twice_witness :
  let σ := initial emptyCluster callerHeap in
  let first := run (CreateOrUpdateStatefulSet service "ns-a" desiredPtr) σ in
  let second := run (CreateOrUpdateStatefulSet service "ns-a" desiredPtr) (snd first) in
  fst first = Ok None
  /\ fst second = Ok None
  /\ issued σ (snd second) =
       [getCall "ns-a" "redis-1" (Some (fake.NewNotFound "redis-1"));
        createCall "ns-a" redis1 None;
        getCall "ns-a" "redis-1" None;
        updateCall "ns-a" (appsv1.set_ResourceVersion redis1 "10") None]
  /\ heap (snd second) !! desiredPtr = Some (appsv1.set_ResourceVersion redis1 "10").
Proof.
  apply (CreateOrUpdate_twice service "ns-a" desiredPtr redis1 None
           (fake.NewNotFound "redis-1") emptyCluster
           (Some (fake.stamped emptyCluster "ns-a" redis1))
           (fake.with_statefulSets emptyCluster
              [fake.stamped emptyCluster "ns-a" redis1])
           (fake.stamped emptyCluster "ns-a" redis1)
           (fake.with_statefulSets emptyCluster
              [fake.stamped emptyCluster "ns-a" redis1])
           (initial emptyCluster callerHeap)).
  - vm_compute. reflexivity.
  - vm_compute. reflexivity.
  - reflexivity.
  - vm_compute. reflexivity.
  - vm_compute. reflexivity.
Defined.

(** A client that answers the fetch with nothing at all. *)
Lemma CreateOrUpdate_nil_stored_panics_witness :
  let c := answering emptyCluster "get" None None in
  let σ := initial c callerHeap in
  let out := run (CreateOrUpdateStatefulSet service "ns-a" desiredPtr) σ in
  fst out = Panic nil_dereference
  /\ issued σ (snd out) = [getCall "ns-a" "redis-1" None]
  /\ heap (snd out) = callerHeap.
Proof.
  apply (CreateOrUpdate_nil_stored_panics service "ns-a" desiredPtr redis1
           (answering emptyCluster "get" None None)
           (initial (answering emptyCluster "get" None None) callerHeap)).
  - vm_compute. reflexivity.
  - vm_compute. reflexivity.
Defined.

(** The object is there, but the update meets a conflict. *)
Lemma CreateOrUpdate_update_failure_surfaces_witness :
  let c := reacting liveCluster "update" conflict in
  let σ := initial c callerHeap in
  let obj := appsv1.set_ResourceVersion redis1 "10" in
  let out := run (CreateOrUpdateStatefulSet service "ns-a" desiredPtr) σ in
  fst out = Ok (Some conflict)
  /\ issued σ (snd out) =
       [getCall "ns-a" "redis-1" None; updateCall "ns-a" obj (Some conflict)]
  /\ count isCreate (issued σ (snd out)) = 0
  /\ logLines σ (snd out) = []
  /\ heap (snd out) !! desiredPtr = Some obj
  /\ (exists final,
        heap (snd out) !! desiredPtr = Some final
        /\ appsv1.ResourceVersion final = "10").
Proof.
  apply (CreateOrUpdate_update_failure_surfaces service "ns-a" desiredPtr redis1
           stored1 (reacting liveCluster "update" conflict) None conflict
           (reacting liveCluster "update" conflict)
           (initial (reacting liveCluster "update" conflict) callerHeap)).
  - vm_compute. reflexivity.
  - vm_compute. reflexivity.
  - vm_compute. reflexivity.
Defined.

(** The namespace of the call wins over the namespace field of the object:
    an object that says ns-b, synchronized in ns-a, is fetched and created
    in ns-a. *)
Example misplaced_object_follows_the_call :
  let σ := initial emptyCluster {[ desiredPtr := misplaced ]} in
  let out := run (CreateOrUpdateStatefulSet service "ns-a" desiredPtr) σ in
  map (fun c => namespaceOf (action c)) (issued σ (snd out)) = ["ns-a"; "ns-a"]
  /\ map appsv1.Namespace (fake.statefulSets (cluster (snd out))) = ["ns-a"].
Proof. split; vm_compute; reflexivity. Qed.


(** The line of the first call of the scenario, under the empty context. *)
Lemma NewStatefulSetService_log_context_witness :
  exists desired,
    callerHeap !! desiredPtr = Some desired
    /\ fields (entry (logger service) "ns-a" "redis-1" "statefulSet created") =
         [] ++ [("service", "k8s.statefulSet"); ("namespace", "ns-a");
                ("statefulSet", appsv1.Name desired)].
Proof.
  apply (NewStatefulSetService_log_context fake.client [] "ns-a" desiredPtr
           (initial emptyCluster callerHeap)
           (entry (logger service) "ns-a" "redis-1" "statefulSet created")).
  assert (logLines (initial emptyCluster callerHeap)
            (snd (run (CreateOrUpdateStatefulSet
                         (NewStatefulSetService fake.client []) "ns-a" desiredPtr)
                    (initial emptyCluster callerHeap)))
          = [entry (logger service) "ns-a" "redis-1" "statefulSet created"]) as ->
    by (vm_compute; reflexivity).
  apply list_elem_of_here.
Defined.

(** Errors as they come: the create of the scenario fails, and the error of
    the store is what each method returns. *)
Lemma errors_returned_verbatim_witness :
  let σ := initial (reacting emptyCluster "create" wanted) callerHeap in
  verbatim (Ok (Some wanted))
    [getCall "ns-a" "redis-1" (Some (fake.NewNotFound "redis-1"));
     createCall "ns-a" redis1 (Some wanted)]
  /\ fst (run (CreateOrUpdateStatefulSet service "ns-a" desiredPtr) σ)
     = Ok (Some wanted)
  /\ verbatim (Ok (Some wanted)) [createCall "ns-a" redis1 (Some wanted)]
  /\ fst (run (CreateStatefulSet service "ns-a" desiredPtr) σ) = Ok (Some wanted).
Proof.
  destruct (errors_returned_verbatim service "ns-a" "redis-1" desiredPtr
              (initial (reacting emptyCluster "create" wanted) callerHeap))
    as (Hsync & _ & Hdirect).
  destruct (Hdirect redis1) as (_ & Hcreate); [ vm_compute; reflexivity | ].
  split_and!; [ exact Hsync | vm_compute; reflexivity | exact Hcreate
              | vm_compute; reflexivity ].
Defined.
